(** * The in-memory user store and the user service of hanacaraka

    A shallow embedding of four Go packages:
    - [entities]      the [User] record, its constructors and methods;
    - [repositories]  the [UserRepository] interface;
    - [persistence]   [MemoryUserRepository], a slice of [*User] behind a lock;
    - [services]      [UserService], validation in front of a repository.

    Go passes users around as pointers and slices as references to a backing
    array, so the embedding keeps an explicit memory: user objects and slice
    cells live in two finite maps, and every function is a computation over
    that memory.  A nil or dangling dereference and an out-of-range index
    are the one outcome [Panic].  The read/write lock of the repository is
    left out: the development is about sequential executions. *)

From stdpp Require Import base strings list gmap.

Open Scope string_scope.
Open Scope list_scope.

(** ** Values *)

Abbreviation loc := positive (only parsing).

(** [type User struct { ID, Name, Email string }] *)
Record User := mkUser { ID : string; Name : string; Email : string }.

(** A value of type [*User]: nil or the address of a user object. *)
Inductive ptr := null | addr (l : loc).

(** A value of type [error]: nil or the result of [errors.New(msg)]. *)
Inductive error := nil_error | errors_New (msg : string).

#[global] Instance User_eq_dec : EqDecision User.
Proof. solve_decision. Defined.
#[global] Instance ptr_eq_dec : EqDecision ptr.
Proof. solve_decision. Defined.
#[global] Instance error_eq_dec : EqDecision error.
Proof. solve_decision. Defined.

(** ** Memory and computations *)

(** [objs] holds the user objects, [arrs] the elements [s[0..len(s))] of
    every slice, under the address of the slice. *)
Record Mem := mkMem { objs : gmap loc User; arrs : gmap loc (list ptr) }.

Inductive outcome (A : Type) := Done (a : A) (m : Mem) | Panic.
Arguments Done {A} a m.
Arguments Panic {A}.

Definition Go (A : Type) : Type := Mem → outcome A.

#[global] Instance Go_ret : MRet Go := λ A a m, Done a m.
#[global] Instance Go_bind : MBind Go := λ A B f c m,
  match c m with
  | Done a m' => f a m'
  | Panic => Panic
  end.

(** [*p] as a pure read of the memory. *)
Definition deref (m : Mem) (p : ptr) : option User :=
  match p with
  | null => None
  | addr l => objs m !! l
  end.

(** Reading a field through [p]. *)
Definition load (p : ptr) : Go User := λ m,
  match deref m p with
  | Some u => Done u m
  | None => Panic
  end.

(** Writing a field through [p]: the object is replaced by [f] of it. *)
Definition modify (p : ptr) (f : User → User) : Go unit := λ m,
  match p with
  | null => Panic
  | addr l =>
      match objs m !! l with
      | Some u => Done () (mkMem (<[l := f u]> (objs m)) (arrs m))
      | None => Panic
      end
  end.

(** [&User{...}]: a new object at an address not in use. *)
Definition new (u : User) : Go ptr := λ m,
  let l := fresh (dom (objs m)) in
  Done (addr l) (mkMem (<[l := u]> (objs m)) (arrs m)).

(** The elements of slice [s]. *)
Definition slice_get (s : loc) : Go (list ptr) := λ m,
  match arrs m !! s with
  | Some us => Done us m
  | None => Panic
  end.

(** The slice [s] now holds [us]. *)
Definition slice_put (s : loc) (us : list ptr) : Go unit := λ m,
  match arrs m !! s with
  | Some _ => Done () (mkMem (objs m) (<[s := us]> (arrs m)))
  | None => Panic
  end.

(** [make([]*User, n)]: a new slice of [n] nil pointers. *)
Definition make (n : nat) : Go loc := λ m,
  let a := fresh (dom (arrs m)) in
  Done a (mkMem (objs m) (<[a := replicate n null]> (arrs m))).

(** [copy(dst, src)]: the first [min(len(dst), len(src))] elements. *)
Definition copy (dst src : loc) : Go unit :=
  from ← slice_get src;
  to ← slice_get dst;
  let n := length to `min` length from in
  slice_put dst (take n from ++ drop n to).

(** [s[i] = p], with Go's bounds check. *)
Definition slice_set (s : loc) (i : nat) (p : ptr) : Go unit :=
  us ← slice_get s;
  if decide (i < length us) then slice_put s (<[i := p]> us) else λ _, Panic.

(** [for i, user := range us { body }] where the body either returns from
    the enclosing function ([Some a]) or falls through to the next
    iteration ([None]). *)
Fixpoint range {A : Type} (us : list ptr) (i : nat)
    (body : nat → ptr → Go (option A)) : Go (option A) :=
  match us with
  | [] => mret None
  | user :: rest =>
      r ← body i user;
      match r with
      | Some a => mret (Some a)
      | None => range rest (S i) body
      end
  end.

(** ** package entities *)

Module entities.

(** [uuid] stands for the string that [uuid.New().String()] yields in
    this call; the generator is not part of the repository. *)
Definition NewUser (uuid : string) (name email : string) : Go ptr :=
  new {| ID := uuid; Name := name; Email := email |}.

Definition NewUserWithID (id name email : string) : Go ptr :=
  new {| ID := id; Name := name; Email := email |}.

Definition IsValid (u : ptr) : Go bool :=
  x ← load u;
  mret (bool_decide (Name x ≠ "") && bool_decide (Email x ≠ "")).

Definition UpdateName (u : ptr) (name : string) : Go unit :=
  modify u (λ x, {| ID := ID x; Name := name; Email := Email x |}).

Definition UpdateEmail (u : ptr) (email : string) : Go unit :=
  modify u (λ x, {| ID := ID x; Name := Name x; Email := email |}).

End entities.

(** ** package repositories *)

Module repositories.

(** [type UserRepository interface].  [GetAll] yields a slice or nil. *)
Class UserRepository (R : Type) := {
  GetAll : R → Go (option loc * error);
  GetByID : R → string → Go (ptr * error);
  Create : R → ptr → Go (ptr * error);
  Update : R → ptr → Go (ptr * error);
  Delete : R → string → Go error;
}.

End repositories.

(** ** package persistence *)

Module persistence.

(** The field [users] is a slice.  No method hands it out ([GetAll]
    copies it), so nothing else refers to its backing array; whether
    [append] reuses that array or moves to a larger one cannot be
    observed, and the slice keeps one cell in [arrs] for its lifetime. *)
Record MemoryUserRepository := mkRepo { users : loc }.

Definition GetAll (r : MemoryUserRepository) : Go (option loc * error) :=
  us ← slice_get (users r);
  result ← make (length us);
  copy result (users r);;
  mret (Some result, nil_error).

Definition GetByID (r : MemoryUserRepository) (id : string)
    : Go (ptr * error) :=
  us ← slice_get (users r);
  found ← range us 0 (λ _ user,
    x ← load user;
    if decide (ID x = id) then mret (Some (user, nil_error))
    else mret None);
  match found with
  | Some res => mret res
  | None => mret (null, errors_New "user not found")
  end.

Definition Create (r : MemoryUserRepository) (user : ptr)
    : Go (ptr * error) :=
  us ← slice_get (users r);
  slice_put (users r) (us ++ [user]);;
  mret (user, nil_error).

Definition Update (r : MemoryUserRepository) (user : ptr)
    : Go (ptr * error) :=
  us ← slice_get (users r);
  found ← range us 0 (λ i existingUser,
    x ← load existingUser;
    y ← load user;
    if decide (ID x = ID y) then
      slice_set (users r) i user;;
      mret (Some (user, nil_error))
    else mret None);
  match found with
  | Some res => mret res
  | None => mret (null, errors_New "user not found")
  end.

Definition Delete (r : MemoryUserRepository) (id : string) : Go error :=
  us ← slice_get (users r);
  found ← range us 0 (λ i user,
    x ← load user;
    if decide (ID x = id) then
      now ← slice_get (users r);
      slice_put (users r) (take i now ++ drop (S i) now);;
      mret (Some nil_error)
    else mret None);
  match found with
  | Some res => mret res
  | None => mret (errors_New "user not found")
  end.

#[global] Instance MemoryUserRepository_impl
    : repositories.UserRepository MemoryUserRepository := {|
  repositories.GetAll := GetAll;
  repositories.GetByID := GetByID;
  repositories.Create := Create;
  repositories.Update := Update;
  repositories.Delete := Delete;
|}.

(** [NewMemoryUserRepository]: an empty slice, then the three sample
    users; [u1], [u2], [u3] are the generated ids. *)
Definition NewMemoryUserRepository (u1 u2 u3 : string)
    : Go MemoryUserRepository :=
  s ← make 0;
  let repo := mkRepo s in
  a ← entities.NewUser u1 "John Doe" "john@example.com";
  us ← slice_get (users repo);
  slice_put (users repo) (us ++ [a]);;
  b ← entities.NewUser u2 "Jane Smith" "jane@example.com";
  us ← slice_get (users repo);
  slice_put (users repo) (us ++ [b]);;
  c ← entities.NewUser u3 "Bob Johnson" "bob@example.com";
  us ← slice_get (users repo);
  slice_put (users repo) (us ++ [c]);;
  mret repo.

End persistence.

(** ** package services *)

Module services.

Import repositories.

Record UserService (R : Type) := mkService { userRepo : R }.
Arguments mkService {R} userRepo.
Arguments userRepo {R} _.

Section methods.
Context {R : Type} `{!UserRepository R}.

Definition NewUserService (userRepo : R) : UserService R :=
  mkService userRepo.

Definition GetAllUsers (s : UserService R) : Go (option loc * error) :=
  GetAll (userRepo s).

Definition GetUserByID (s : UserService R) (id : string)
    : Go (ptr * error) :=
  if decide (id = "") then mret (null, errors_New "invalid user ID")
  else GetByID (userRepo s) id.

Definition CreateUser (s : UserService R) (uuid : string)
    (name email : string) : Go (ptr * error) :=
  user ← entities.NewUser uuid name email;
  valid ← entities.IsValid user;
  if negb valid then
    mret (null,
          errors_New "invalid user data: name and email are required")
  else Create (userRepo s) user.

Definition UpdateUser (s : UserService R) (id : string)
    (name email : string) : Go (ptr * error) :=
  if decide (id = "") then mret (null, errors_New "invalid user ID")
  else if bool_decide (name = "") || bool_decide (email = "") then
    mret (null,
          errors_New "invalid user data: name and email are required")
  else
    '(existingUser, err) ← GetByID (userRepo s) id;
    if decide (err ≠ nil_error) then mret (null, err)
    else if decide (existingUser = null) then
      mret (null, errors_New "user not found")
    else
      entities.UpdateName existingUser name;;
      entities.UpdateEmail existingUser email;;
      valid ← entities.IsValid existingUser;
      if negb valid then
        mret (null,
              errors_New "invalid user data: name and email are required")
      else Update (userRepo s) existingUser.

Definition DeleteUser (s : UserService R) (id : string) : Go error :=
  if decide (id = "") then mret (errors_New "invalid user ID")
  else
    '(existingUser, err) ← GetByID (userRepo s) id;
    if decide (err ≠ nil_error) then mret err
    else if decide (existingUser = null) then
      mret (errors_New "user not found")
    else Delete (userRepo s) id.

End methods.

End services.


(** ** net/http and encoding/json, as far as the handlers use them *)

Module http.

(** What [json.NewEncoder(w).Encode(v)] writes, kept as the value encoded:
    [null] for a nil pointer or a nil slice, an object for a user, an
    array for a slice, whose elements are users or [null] ([None]). *)
Inductive json :=
  json_null | json_user (u : User) | json_array (vs : list (option User)).

(** One write to the body of a response. *)
Inductive chunk := text (s : string) | encoded (v : json).

(** A [ResponseWriter] as [httptest.ResponseRecorder] shows it: the status
    code once the header has been written, the header map, the body. *)
Record ResponseWriter := mkResponse {
  code : option nat;
  header : gmap string string;
  body : list chunk;
}.

Definition NewRecorder : ResponseWriter := mkResponse None ∅ [].

Definition StatusOK : nat := 200.
Definition StatusCreated : nat := 201.
Definition StatusNoContent : nat := 204.
Definition StatusBadRequest : nat := 400.
Definition StatusNotFound : nat := 404.
Definition StatusInternalServerError : nat := 500.

(** [w.Header().Set(k, v)] *)
Definition Header_Set (k v : string) (w : ResponseWriter) : ResponseWriter :=
  mkResponse (code w) (<[k := v]> (header w)) (body w).

(** [w.Header().Del(k)] *)
Definition Header_Del (k : string) (w : ResponseWriter) : ResponseWriter :=
  mkResponse (code w) (delete k (header w)) (body w).

(** [w.WriteHeader(c)]: the first call fixes the status code. *)
Definition WriteHeader (c : nat) (w : ResponseWriter) : ResponseWriter :=
  match code w with
  | Some _ => w
  | None => mkResponse (Some c) (header w) (body w)
  end.

(** [w.Write(...)]: writes the header with 200 unless it is written. *)
Definition Write (c : chunk) (w : ResponseWriter) : ResponseWriter :=
  let w := WriteHeader StatusOK w in
  mkResponse (code w) (header w) (body w ++ [c]).

(** [http.Error(w, msg, c)] *)
Definition Error (w : ResponseWriter) (msg : string) (c : nat)
    : ResponseWriter :=
  let w := Header_Del "Content-Length" w in
  let w := Header_Set "Content-Type" "text/plain; charset=utf-8" w in
  let w := Header_Set "X-Content-Type-Options" "nosniff" w in
  let w := WriteHeader c w in
  Write (text (msg ++ String (Ascii.ascii_of_nat 10) "")) w.

(** [json.NewEncoder(w).Encode(user)] for [user *User] *)
Definition Encode_user (user : ptr) (w : ResponseWriter)
    : Go ResponseWriter :=
  match user with
  | null => mret (Write (encoded json_null) w)
  | addr _ => x ← load user; mret (Write (encoded (json_user x)) w)
  end.

Fixpoint encode_each (us : list ptr) : Go (list (option User)) :=
  match us with
  | [] => mret []
  | null :: rest => vs ← encode_each rest; mret (None :: vs)
  | user :: rest =>
      x ← load user; vs ← encode_each rest; mret (Some x :: vs)
  end.

(** [json.NewEncoder(w).Encode(users)] for [users []*User] *)
Definition Encode_users (users : option loc) (w : ResponseWriter)
    : Go ResponseWriter :=
  match users with
  | None => mret (Write (encoded json_null) w)
  | Some a =>
      us ← slice_get a;
      vs ← encode_each us;
      mret (Write (encoded (json_array vs)) w)
  end.

(** A request as the handlers read it: the path variables of
    [mux.Vars(r)], and what decoding the body into
    [struct { Name, Email string }] gives, [None] when [Decode] returns an
    error; a field missing from the body is the empty string. *)
Record Request := mkRequest {
  Vars : gmap string string;
  Body : option (string * string);
}.

(** [vars[k]]: the empty string for a missing key. *)
Definition var (r : Request) (k : string) : string := default "" (Vars r !! k).

(** [err.Error()], called on non-nil errors only. *)
Definition Error_text (e : error) : string :=
  match e with
  | errors_New msg => msg
  | nil_error => ""
  end.

End http.

(** ** package services, the interface *)

Module service_interface.

(** [type UserServiceInterface interface].  [CreateUser] carries the string
    the id generator yields during the call, as [services.CreateUser]
    does. *)
Class UserServiceInterface (S : Type) := {
  GetAllUsers : S → Go (option loc * error);
  GetUserByID : S → string → Go (ptr * error);
  CreateUser : S → string → string → string → Go (ptr * error);
  UpdateUser : S → string → string → string → Go (ptr * error);
  DeleteUser : S → string → Go error;
}.

#[global] Instance UserService_impl {R : Type}
    `{!repositories.UserRepository R}
    : UserServiceInterface (services.UserService R) := {|
  GetAllUsers := services.GetAllUsers;
  GetUserByID := services.GetUserByID;
  CreateUser := services.CreateUser;
  UpdateUser := services.UpdateUser;
  DeleteUser := services.DeleteUser;
|}.

End service_interface.

(** ** package handlers *)

Module handlers.

Import http.

Record UserHandler (S : Type) := mkHandler { userService : S }.
Arguments mkHandler {S} userService.
Arguments userService {S} _.

Section methods.
Context {S : Type} `{!service_interface.UserServiceInterface S}.

Definition NewUserHandler (userService : S) : UserHandler S :=
  mkHandler userService.

(** GET /users *)
Definition GetUsers (h : UserHandler S) (w : ResponseWriter) (r : Request)
    : Go ResponseWriter :=
  '(users, err) ← service_interface.GetAllUsers (userService h);
  if decide (err ≠ nil_error) then
    mret (Error w "Failed to get users" StatusInternalServerError)
  else
    let w := Header_Set "Content-Type" "application/json" w in
    Encode_users users w.

(** GET /users/{id} *)
Definition GetUser (h : UserHandler S) (w : ResponseWriter) (r : Request)
    : Go ResponseWriter :=
  let id := var r "id" in
  if decide (id = "") then mret (Error w "Invalid user ID" StatusBadRequest)
  else
    '(user, err) ← service_interface.GetUserByID (userService h) id;
    if decide (err ≠ nil_error) then
      if decide (Error_text err = "user not found") then
        mret (Error w "User not found" StatusNotFound)
      else mret (Error w "Failed to get user" StatusInternalServerError)
    else
      let w := Header_Set "Content-Type" "application/json" w in
      Encode_user user w.

(** POST /users; [uuid] is the id the generator yields if it is asked. *)
Definition CreateUser (h : UserHandler S) (uuid : string)
    (w : ResponseWriter) (r : Request) : Go ResponseWriter :=
  match Body r with
  | None => mret (Error w "Invalid JSON" StatusBadRequest)
  | Some (Name, Email) =>
      '(user, err) ←
        service_interface.CreateUser (userService h) uuid Name Email;
      if decide (err ≠ nil_error) then
        if decide (Error_text err
                   = "invalid user data: name and email are required") then
          mret (Error w (Error_text err) StatusBadRequest)
        else mret (Error w "Failed to create user" StatusInternalServerError)
      else
        let w := Header_Set "Content-Type" "application/json" w in
        let w := WriteHeader StatusCreated w in
        Encode_user user w
  end.

(** PUT /users/{id} *)
Definition UpdateUser (h : UserHandler S) (w : ResponseWriter) (r : Request)
    : Go ResponseWriter :=
  let id := var r "id" in
  if decide (id = "") then mret (Error w "Invalid user ID" StatusBadRequest)
  else
    match Body r with
    | None => mret (Error w "Invalid JSON" StatusBadRequest)
    | Some (Name, Email) =>
        '(user, err) ←
          service_interface.UpdateUser (userService h) id Name Email;
        if decide (err ≠ nil_error) then
          if decide (Error_text err = "user not found") then
            mret (Error w "User not found" StatusNotFound)
          else if decide (Error_text err
                     = "invalid user data: name and email are required") then
            mret (Error w (Error_text err) StatusBadRequest)
          else mret (Error w "Failed to update user" StatusInternalServerError)
        else
          let w := Header_Set "Content-Type" "application/json" w in
          Encode_user user w
    end.

(** DELETE /users/{id} *)
Definition DeleteUser (h : UserHandler S) (w : ResponseWriter) (r : Request)
    : Go ResponseWriter :=
  let id := var r "id" in
  if decide (id = "") then mret (Error w "Invalid user ID" StatusBadRequest)
  else
    err ← service_interface.DeleteUser (userService h) id;
    if decide (err ≠ nil_error) then
      if decide (Error_text err = "user not found") then
        mret (Error w "User not found" StatusNotFound)
      else mret (Error w "Failed to delete user" StatusInternalServerError)
    else mret (WriteHeader StatusNoContent w).

End methods.

End handlers.

(** ** Vocabulary of the statements *)

(** [p] points to a user object. *)
Definition valid (m : Mem) (p : ptr) : Prop := is_Some (deref m p).

(** [p] points to a user object whose [ID] is [id]. *)
Definition has_id (m : Mem) (id : string) (p : ptr) : Prop :=
  ∃ u, deref m p = Some u ∧ ID u = id.

(** [p] is the element of [us] with the lowest index [i] whose [ID] is
    [id]. *)
Definition first_match (m : Mem) (id : string) (us : list ptr)
    (i : nat) (p : ptr) : Prop :=
  us !! i = Some p ∧ has_id m id p ∧
  ∀ j q, j < i → us !! j = Some q → ¬ has_id m id q.

(** The memory [m] with the slice [s] holding [us]. *)
Definition with_slice (m : Mem) (s : loc) (us : list ptr) : Mem :=
  mkMem (objs m) (<[s := us]> (arrs m)).

(** The two conditions of the callers' vocabulary. *)
Definition NotFound : error := errors_New "user not found".

Definition ValidationError (e : error) : Prop :=
  e = errors_New "invalid user ID" ∨
  e = errors_New "invalid user data: name and email are required".

(** ** Sample states *)

Module sample.

Definition empty : Mem := mkMem ∅ ∅.

(** The repository right after [NewMemoryUserRepository], with ids
    ["a"], ["b"], ["c"]. *)
Definition repo : persistence.MemoryUserRepository := persistence.mkRepo 1.

Definition john : User := mkUser "a" "John Doe" "john@example.com".
Definition jane : User := mkUser "b" "Jane Smith" "jane@example.com".
Definition bob : User := mkUser "c" "Bob Johnson" "bob@example.com".

Definition seeded : Mem :=
  mkMem (<[1%positive := john]> (<[2%positive := jane]>
          (<[3%positive := bob]> ∅)))
        (<[1%positive := [addr 1; addr 2; addr 3]]> ∅).

(** A repository in which two records carry the id ["a"]. *)
Definition twin : User := mkUser "a" "Johanna" "johanna@example.com".

Definition doubled : Mem :=
  mkMem (<[1%positive := john]> (<[2%positive := jane]>
          (<[3%positive := twin]> ∅)))
        (<[1%positive := [addr 1; addr 2; addr 3]]> ∅).

(** The seeded repository and, outside it, a fourth object made by
    [NewUserWithID] with the id of the second record. *)
Definition jane' : User := mkUser "b" "Jane Updated" "jane.updated@example.com".

Definition staged : Mem :=
  mkMem (<[4%positive := jane']> (objs seeded)) (arrs seeded).

(** The seeded repository after its second record got a new name and a
    new email. *)
Definition renamed : Mem :=
  mkMem (<[2%positive := jane']> (objs seeded)) (arrs seeded).

(** A repository every method of which panics: a service call that
    returns normally on it has not called the repository. *)
#[global] Instance unreachable_repo : repositories.UserRepository unit := {|
  repositories.GetAll := λ _ _, Panic;
  repositories.GetByID := λ _ _ _, Panic;
  repositories.Create := λ _ _ _, Panic;
  repositories.Update := λ _ _ _, Panic;
  repositories.Delete := λ _ _ _, Panic;
|}.

End sample.

(** ** Well-formed stores *)

(** The repository's slice exists and each of its elements points to a
    user object: what the constructor sets up and what the methods keep
    as long as they are handed such pointers. *)
Definition store_ok (m : Mem) (r : persistence.MemoryUserRepository) : Prop :=
  ∃ us, arrs m !! persistence.users r = Some us ∧ Forall (valid m) us.

(** The memory is [m] or [m] with another content of slice [s]. *)
Definition only_slice (s : loc) (m m' : Mem) : Prop :=
  m' = m ∨ ∃ vs, m' = with_slice m s vs.

(** * Properties *)

(** ** Computations *)

Ltac go_unfold := unfold mbind, mret, Go_bind, Go_ret in *.

Lemma bind_done {A B} (c : Go A) (f : A → Go B) m a m' :
  c m = Done a m' → (x ← c; f x) m = f a m'.
Proof. intros E. go_unfold. by rewrite E. Qed.

Lemma bind_panic {A B} (c : Go A) (f : A → Go B) m :
  c m = Panic → (x ← c; f x) m = Panic.
Proof. intros E. go_unfold. by rewrite E. Qed.

Lemma bind_inv {A B} (c : Go A) (f : A → Go B) m b m' :
  (x ← c; f x) m = Done b m' → ∃ a m1, c m = Done a m1 ∧ f a m1 = Done b m'.
Proof.
  go_unfold. destruct (c m) as [a m1|] eqn:E; [|done]. eauto.
Qed.

Lemma load_done m p u : deref m p = Some u → load p m = Done u m.
Proof. intros E. unfold load. by rewrite E. Qed.

Lemma load_inv m p u m' : load p m = Done u m' → deref m p = Some u ∧ m' = m.
Proof. unfold load. destruct (deref m p); naive_solver. Qed.

Lemma slice_get_done m s us : arrs m !! s = Some us → slice_get s m = Done us m.
Proof. intros E. unfold slice_get. by rewrite E. Qed.

Lemma slice_put_done m s us vs :
  arrs m !! s = Some us → slice_put s vs m = Done () (with_slice m s vs).
Proof. intros E. unfold slice_put. by rewrite E. Qed.

Lemma slice_set_done m s us i p :
  arrs m !! s = Some us → i < length us →
  slice_set s i p m = Done () (with_slice m s (<[i := p]> us)).
Proof.
  intros E Hi. unfold slice_set.
  rewrite (bind_done _ _ _ _ _ (slice_get_done _ _ _ E)).
  rewrite decide_True by done. by eapply slice_put_done.
Qed.

(** ** The loop *)

Lemma range_none {A} us i (body : nat → ptr → Go (option A)) m :
  (∀ j q, us !! j = Some q → body (i + j) q m = Done None m) →
  range us i body m = Done None m.
Proof.
  revert i. induction us as [|p us IH]; intros i Hb; [done|].
  simpl. rewrite (bind_done _ _ m None m).
  - apply IH. intros j q Hq. replace (S i + j) with (i + S j) by lia.
    by apply Hb.
  - specialize (Hb 0 p eq_refl). by rewrite Nat.add_0_r in Hb.
Qed.

Lemma range_hit {A} pre p post i (body : nat → ptr → Go (option A)) m a m' :
  (∀ j q, pre !! j = Some q → body (i + j) q m = Done None m) →
  body (i + length pre) p m = Done (Some a) m' →
  range (pre ++ p :: post) i body m = Done (Some a) m'.
Proof.
  revert i. induction pre as [|x pre IH]; intros i Hpre Hp; simpl.
  - rewrite Nat.add_0_r in Hp. by rewrite (bind_done _ _ m (Some a) m').
  - rewrite (bind_done _ _ m None m).
    + apply IH.
      * intros j q Hq. replace (S i + j) with (i + S j) by lia. by apply Hpre.
      * by replace (S i + length pre) with (i + length (x :: pre))
          by (simpl; lia).
    + specialize (Hpre 0 x eq_refl). by rewrite Nat.add_0_r in Hpre.
Qed.

(** Whatever a loop returns, one of its iterations returned. *)
Lemma range_some_inv {A} us i (body : nat → ptr → Go (option A)) m a m' :
  range us i body m = Done (Some a) m' →
  ∃ j q m1, us !! j = Some q ∧ body (i + j) q m1 = Done (Some a) m'.
Proof.
  revert i m. induction us as [|p us IH]; intros i m; simpl; [done|].
  intros H. apply bind_inv in H as (r & m1 & Hb & H).
  destruct r as [a'|].
  - inversion H; subst. exists 0, p, m. by rewrite Nat.add_0_r.
  - apply IH in H as (j & q & m2 & Hq & H).
    exists (S j), q, m2. split; [done|].
    by replace (i + S j) with (S i + j) by lia.
Qed.

(** ** Finding the first match *)

Lemma has_id_dec m id p : valid m p → has_id m id p ∨ ¬ has_id m id p.
Proof.
  intros [u Hu]. destruct (decide (ID u = id)) as [E|E].
  - left. by exists u.
  - right. intros (u' & Hu' & E'). congruence.
Qed.

Lemma first_match_exists m id us :
  Forall (valid m) us → (∃ q, q ∈ us ∧ has_id m id q) →
  ∃ i p, first_match m id us i p.
Proof.
  induction 1 as [|x us Hx Hus IH]; intros (q & Hq & Hid).
  - by apply elem_of_nil in Hq.
  - destruct (has_id_dec m id x Hx) as [Y|N].
    + exists 0, x. repeat split; [done|]. intros j ? Hj. lia.
    + apply elem_of_cons in Hq as [->|Hq]; [done|].
      destruct IH as (i & p & Hi & Hp & Hlt); [by eauto|].
      exists (S i), p. repeat split; [done..|].
      intros [|j] q' Hj Hq'; simpl in Hq'.
      * by inversion Hq'; subst.
      * apply (Hlt j q'); [lia|done].
Qed.

Lemma first_match_lt m id us i p : first_match m id us i p → i < length us.
Proof. intros (Hi & _). by eapply lookup_lt_Some. Qed.

Lemma first_match_split m id us i p :
  first_match m id us i p →
  us = take i us ++ p :: drop (S i) us ∧ length (take i us) = i.
Proof.
  intros H. pose proof (first_match_lt _ _ _ _ _ H) as Hlt.
  destruct H as (Hi & _). split.
  - by rewrite take_drop_middle.
  - rewrite length_take. lia.
Qed.

Lemma first_match_unique m id us i p i' p' :
  first_match m id us i p → first_match m id us i' p' → i = i' ∧ p = p'.
Proof.
  intros (Hi & Hp & Hlt) (Hi' & Hp' & Hlt').
  assert (i = i') as <-.
  { destruct (Nat.lt_trichotomy i i') as [L|[E|L]]; [|done|].
    - by destruct (Hlt' i p L Hi).
    - by destruct (Hlt i' p' L Hi'). }
  split; [done|congruence].
Qed.

(** ** The store: one lemma per loop outcome *)

Section store.
Import persistence.
Variables (m : Mem) (r : MemoryUserRepository) (us : list ptr).
Hypothesis Hus : arrs m !! users r = Some us.
Hypothesis Hvalid : Forall (valid m) us.

Lemma elem_valid j q : us !! j = Some q → ∃ u, deref m q = Some u.
Proof.
  intros Hq. rewrite Forall_lookup in Hvalid. by destruct (Hvalid j q Hq) as [u ?]; eauto.
Qed.

Lemma GetByID_found id i p :
  first_match m id us i p → GetByID r id m = Done (p, nil_error) m.
Proof.
  intros H. destruct (first_match_split _ _ _ _ _ H) as (Hsplit & Hlen).
  destruct H as (Hi & (u & Hu & Hid) & Hlt).
  unfold GetByID. rewrite (bind_done _ _ _ _ _ (slice_get_done _ _ _ Hus)).
  rewrite (bind_done _ _ m (Some (p, nil_error)) m); [done|].
  rewrite Hsplit. apply range_hit.
  - intros j q Hq. apply lookup_take_Some in Hq as [Hq Hj].
    destruct (elem_valid j q Hq) as [v Hv].
    rewrite (bind_done _ _ _ _ _ (load_done _ _ _ Hv)).
    rewrite decide_False; [done|]. intros E. apply (Hlt j q Hj Hq). by exists v.
  - rewrite (bind_done _ _ _ _ _ (load_done _ _ _ Hu)). by rewrite decide_True.
Qed.

Lemma GetByID_absent id :
  (∀ q, q ∈ us → ¬ has_id m id q) →
  GetByID r id m = Done (null, NotFound) m.
Proof.
  intros Habs.
  unfold GetByID. rewrite (bind_done _ _ _ _ _ (slice_get_done _ _ _ Hus)).
  rewrite (bind_done _ _ m None m); [done|].
  apply range_none. intros j q Hq.
  destruct (elem_valid j q Hq) as [v Hv].
  rewrite (bind_done _ _ _ _ _ (load_done _ _ _ Hv)).
  rewrite decide_False; [done|]. intros E.
  apply (Habs q); [by eapply list_elem_of_lookup_2|by exists v].
Qed.

Lemma Update_found user y i p :
  deref m user = Some y → first_match m (ID y) us i p →
  Update r user m
  = Done (user, nil_error) (with_slice m (users r) (<[i := user]> us)).
Proof.
  intros Hy H. destruct (first_match_split _ _ _ _ _ H) as (Hsplit & Hlen).
  pose proof (first_match_lt _ _ _ _ _ H) as Hilt.
  destruct H as (Hi & (u & Hu & Hid) & Hlt).
  unfold Update. rewrite (bind_done _ _ _ _ _ (slice_get_done _ _ _ Hus)).
  rewrite (bind_done _ _ m (Some (user, nil_error))
             (with_slice m (users r) (<[i := user]> us))); [done|].
  rewrite Hsplit at 1. apply range_hit.
  - intros j q Hq. apply lookup_take_Some in Hq as [Hq Hj].
    destruct (elem_valid j q Hq) as [v Hv].
    rewrite (bind_done _ _ _ _ _ (load_done _ _ _ Hv)).
    rewrite (bind_done _ _ _ _ _ (load_done _ _ _ Hy)).
    rewrite decide_False; [done|]. intros E. apply (Hlt j q Hj Hq). by exists v.
  - rewrite (bind_done _ _ _ _ _ (load_done _ _ _ Hu)).
    rewrite (bind_done _ _ _ _ _ (load_done _ _ _ Hy)).
    rewrite decide_True by done. rewrite Hlen. simpl.
    by rewrite (bind_done _ _ _ _ _ (slice_set_done _ _ _ _ user Hus Hilt)).
Qed.

Lemma Update_absent user y :
  deref m user = Some y → (∀ q, q ∈ us → ¬ has_id m (ID y) q) →
  Update r user m = Done (null, NotFound) m.
Proof.
  intros Hy Habs.
  unfold Update. rewrite (bind_done _ _ _ _ _ (slice_get_done _ _ _ Hus)).
  rewrite (bind_done _ _ m None m); [done|].
  apply range_none. intros j q Hq.
  destruct (elem_valid j q Hq) as [v Hv].
  rewrite (bind_done _ _ _ _ _ (load_done _ _ _ Hv)).
  rewrite (bind_done _ _ _ _ _ (load_done _ _ _ Hy)).
  rewrite decide_False; [done|]. intros E.
  apply (Habs q); [by eapply list_elem_of_lookup_2|by exists v].
Qed.

Lemma Delete_found id i p :
  first_match m id us i p →
  Delete r id m
  = Done nil_error (with_slice m (users r) (take i us ++ drop (S i) us)).
Proof.
  intros H. destruct (first_match_split _ _ _ _ _ H) as (Hsplit & Hlen).
  destruct H as (Hi & (u & Hu & Hid) & Hlt).
  unfold Delete. rewrite (bind_done _ _ _ _ _ (slice_get_done _ _ _ Hus)).
  rewrite (bind_done _ _ m (Some nil_error)
             (with_slice m (users r) (take i us ++ drop (S i) us))); [done|].
  rewrite Hsplit at 1. apply range_hit.
  - intros j q Hq. apply lookup_take_Some in Hq as [Hq Hj].
    destruct (elem_valid j q Hq) as [v Hv].
    rewrite (bind_done _ _ _ _ _ (load_done _ _ _ Hv)).
    rewrite decide_False; [done|]. intros E. apply (Hlt j q Hj Hq). by exists v.
  - rewrite (bind_done _ _ _ _ _ (load_done _ _ _ Hu)).
    rewrite decide_True by done. rewrite Hlen. simpl.
    rewrite (bind_done _ _ _ _ _ (slice_get_done _ _ _ Hus)).
    by rewrite (bind_done _ _ _ _ _ (slice_put_done _ _ _ _ Hus)).
Qed.

Lemma Delete_absent id :
  (∀ q, q ∈ us → ¬ has_id m id q) → Delete r id m = Done NotFound m.
Proof.
  intros Habs.
  unfold Delete. rewrite (bind_done _ _ _ _ _ (slice_get_done _ _ _ Hus)).
  rewrite (bind_done _ _ m None m); [done|].
  apply range_none. intros j q Hq.
  destruct (elem_valid j q Hq) as [v Hv].
  rewrite (bind_done _ _ _ _ _ (load_done _ _ _ Hv)).
  rewrite decide_False; [done|]. intros E.
  apply (Habs q); [by eapply list_elem_of_lookup_2|by exists v].
Qed.

End store.

(** ** Removing one element of a slice *)

Lemma remove_length (us : list ptr) i :
  i < length us → S (length (take i us ++ drop (S i) us)) = length us.
Proof. intros Hi. rewrite length_app, length_take, length_drop. lia. Qed.

Lemma remove_lookup_lt (us : list ptr) i j :
  i < length us → j < i → (take i us ++ drop (S i) us) !! j = us !! j.
Proof.
  intros Hi Hj. rewrite lookup_app_l by (rewrite length_take; lia).
  by apply lookup_take_lt.
Qed.

Lemma remove_lookup_ge (us : list ptr) i j :
  i < length us → (i ≤ j)%nat → (take i us ++ drop (S i) us) !! j = us !! S j.
Proof.
  intros Hi Hj. rewrite lookup_app_r by (rewrite length_take; lia).
  rewrite length_take, lookup_drop. f_equal. lia.
Qed.

(** Tactics for the sample states: every element of a concrete slice is
    looked at in turn. *)
Ltac sample_valid := repeat constructor; eexists; reflexivity.

Ltac sample_absent :=
  let q := fresh "q" in let H := fresh "H" in let u := fresh "u" in
  let Hu := fresh "Hu" in let E := fresh "E" in
  intros q H (u & Hu & E);
  repeat (apply elem_of_cons in H as [->|H];
          [vm_compute in Hu; inversion Hu; subst u; discriminate E|]);
  by apply elem_of_nil in H.

(** * The properties of the specification *)

(** C1.  An id that no record of the store's collection carries, the empty
    string included, makes the store's get, update and delete return the
    error "user not found" and nothing else; the memory is left as it was.
    For update the id is the one of the record passed in. *)
Theorem C1_absent_id_yields_NotFound
    (m : Mem) (r : persistence.MemoryUserRepository) (us : list ptr)
    (id : string) :
  arrs m !! persistence.users r = Some us →
  Forall (valid m) us →
  (∀ q, q ∈ us → ¬ has_id m id q) →
  persistence.GetByID r id m = Done (null, NotFound) m ∧
  (∀ user, has_id m id user →
     persistence.Update r user m = Done (null, NotFound) m) ∧
  persistence.Delete r id m = Done NotFound m.
Proof.
  intros Hus Hvalid Habs. split; [|split].
  - by eapply GetByID_absent.
  - intros user (y & Hy & <-). by eapply Update_absent.
  - by eapply Delete_absent.
Qed.

(** The seeded repository and the empty id. *)
Lemma C1_witness :
  persistence.GetByID sample.repo "" sample.seeded
    = Done (null, NotFound) sample.seeded ∧
  (∀ user, has_id sample.seeded "" user →
     persistence.Update sample.repo user sample.seeded
       = Done (null, NotFound) sample.seeded) ∧
  persistence.Delete sample.repo "" sample.seeded
    = Done NotFound sample.seeded.
Proof.
  apply (C1_absent_id_yields_NotFound sample.seeded sample.repo
           [addr 1; addr 2; addr 3] "").
  - reflexivity.
  - sample_valid.
  - sample_absent.
Defined.

(** C3.  When some record of the collection has the id of the record
    passed in, update writes the new pointer at the index of the first such
    record: the length and every other index are as before, and no user
    object is touched.  When none has it, update returns "user not found"
    and the memory is left as it was. *)
Theorem C3_Update_in_place
    (m : Mem) (r : persistence.MemoryUserRepository) (us : list ptr)
    (user : ptr) (y : User) :
  arrs m !! persistence.users r = Some us →
  Forall (valid m) us →
  deref m user = Some y →
  ((∃ q, q ∈ us ∧ has_id m (ID y) q) →
   ∃ i p us',
     first_match m (ID y) us i p ∧
     persistence.Update r user m
       = Done (user, nil_error) (with_slice m (persistence.users r) us') ∧
     us' = <[i := user]> us ∧
     length us' = length us ∧
     us' !! i = Some user ∧
     (∀ j, j ≠ i → us' !! j = us !! j)) ∧
  ((∀ q, q ∈ us → ¬ has_id m (ID y) q) →
   persistence.Update r user m = Done (null, NotFound) m).
Proof.
  intros Hus Hvalid Hy. split.
  - intros Hex.
    destruct (first_match_exists _ _ _ Hvalid Hex) as (i & p & Hfm).
    exists i, p, (<[i := user]> us). split; [done|].
    split; [by eapply Update_found|]. split; [done|].
    split; [by rewrite length_insert|]. split.
    + apply list_lookup_insert_eq. by eapply first_match_lt.
    + intros j Hj. by apply list_lookup_insert_ne.
  - intros Habs. by eapply Update_absent.
Qed.

(** C4.  When some record of the collection has the id, delete takes out
    the first such record: the records before it keep their index, the
    records after it move down by one, and the length drops by one.  When
    none has it, delete returns "user not found" and the memory is left as
    it was. *)
Theorem C4_Delete_first_match
    (m : Mem) (r : persistence.MemoryUserRepository) (us : list ptr)
    (id : string) :
  arrs m !! persistence.users r = Some us →
  Forall (valid m) us →
  ((∃ q, q ∈ us ∧ has_id m id q) →
   ∃ i p us',
     first_match m id us i p ∧
     persistence.Delete r id m
       = Done nil_error (with_slice m (persistence.users r) us') ∧
     us' = take i us ++ drop (S i) us ∧
     S (length us') = length us ∧
     (∀ j, j < i → us' !! j = us !! j) ∧
     (∀ j, (i ≤ j)%nat → us' !! j = us !! S j)) ∧
  ((∀ q, q ∈ us → ¬ has_id m id q) →
   persistence.Delete r id m = Done NotFound m).
Proof.
  intros Hus Hvalid. split.
  - intros Hex.
    destruct (first_match_exists _ _ _ Hvalid Hex) as (i & p & Hfm).
    pose proof (first_match_lt _ _ _ _ _ Hfm) as Hi.
    exists i, p, (take i us ++ drop (S i) us). split; [done|].
    split; [by eapply Delete_found|]. split; [done|].
    split; [by apply remove_length|]. split.
    + intros j Hj. by apply remove_lookup_lt.
    + intros j Hj. by apply remove_lookup_ge.
  - intros Habs. by eapply Delete_absent.
Qed.

(** C5.  Create never fails: it returns the pointer it was given with a nil
    error, and the collection is the old one followed by that pointer, so
    one longer.  Nothing is assumed about the id of the new record, and no
    record is read: a record whose id is already in the collection is
    appended like any other. *)
Theorem C5_Create_appends
    (m : Mem) (r : persistence.MemoryUserRepository) (us : list ptr)
    (user : ptr) :
  arrs m !! persistence.users r = Some us →
  persistence.Create r user m
    = Done (user, nil_error) (with_slice m (persistence.users r) (us ++ [user]))
  ∧ length (us ++ [user]) = S (length us)
  ∧ (us ++ [user]) !! length us = Some user
  ∧ (∀ j, j < length us → (us ++ [user]) !! j = us !! j).
Proof.
  intros Hus. split; [|split; [|split]].
  - unfold persistence.Create.
    rewrite (bind_done _ _ _ _ _ (slice_get_done _ _ _ Hus)).
    by rewrite (bind_done _ _ _ _ _ (slice_put_done _ _ _ _ Hus)).
  - rewrite length_app. simpl. lia.
  - rewrite lookup_app_r by lia. by rewrite Nat.sub_diag.
  - intros j Hj. by apply lookup_app_l.
Qed.

(** Replacing the second record of the seeded repository, and a record
    whose id is nowhere in it. *)
Lemma C3_witness :
  (∃ i p us',
     first_match sample.staged "b" [addr 1; addr 2; addr 3] i p ∧
     persistence.Update sample.repo (addr 4) sample.staged
       = Done (addr 4, nil_error) (with_slice sample.staged 1 us') ∧
     us' = <[i := addr 4]> [addr 1; addr 2; addr 3] ∧
     length us' = 3 ∧
     us' !! i = Some (addr 4) ∧
     (∀ j, j ≠ i → us' !! j = [addr 1; addr 2; addr 3] !! j)) ∧
  persistence.Update sample.repo (addr 4) (with_slice sample.staged 1 [addr 1])
    = Done (null, NotFound) (with_slice sample.staged 1 [addr 1]).
Proof.
  split.
  - apply (C3_Update_in_place sample.staged sample.repo
             [addr 1; addr 2; addr 3] (addr 4) sample.jane');
      [reflexivity|sample_valid|reflexivity|].
    exists (addr 2). split; [set_solver|]. by exists sample.jane.
  - apply (C3_Update_in_place (with_slice sample.staged 1 [addr 1])
             sample.repo [addr 1] (addr 4) sample.jane');
      [reflexivity|sample_valid|reflexivity|sample_absent].
Defined.

(** Deleting the second record of the seeded repository, and an id that
    is nowhere in it. *)
Lemma C4_witness :
  (∃ i p us',
     first_match sample.seeded "b" [addr 1; addr 2; addr 3] i p ∧
     persistence.Delete sample.repo "b" sample.seeded
       = Done nil_error (with_slice sample.seeded 1 us') ∧
     us' = take i [addr 1; addr 2; addr 3]
           ++ drop (S i) [addr 1; addr 2; addr 3] ∧
     S (length us') = 3 ∧
     (∀ j, j < i → us' !! j = [addr 1; addr 2; addr 3] !! j) ∧
     (∀ j, (i ≤ j)%nat → us' !! j = [addr 1; addr 2; addr 3] !! S j)) ∧
  persistence.Delete sample.repo "nonexistent-id" sample.seeded
    = Done NotFound sample.seeded.
Proof.
  split.
  - apply (C4_Delete_first_match sample.seeded sample.repo
             [addr 1; addr 2; addr 3] "b"); [reflexivity|sample_valid|].
    exists (addr 2). split; [set_solver|]. by exists sample.jane.
  - apply (C4_Delete_first_match sample.seeded sample.repo
             [addr 1; addr 2; addr 3] "nonexistent-id");
      [reflexivity|sample_valid|sample_absent].
Defined.

(** Appending to the seeded repository a record whose id is already that
    of its second record. *)
Lemma C5_witness :
  has_id sample.staged "b" (addr 2) ∧ has_id sample.staged "b" (addr 4) ∧
  persistence.Create sample.repo (addr 4) sample.staged
    = Done (addr 4, nil_error)
        (with_slice sample.staged 1 [addr 1; addr 2; addr 3; addr 4]).
Proof.
  split; [by exists sample.jane|]. split; [by exists sample.jane'|].
  apply (C5_Create_appends sample.staged sample.repo
           [addr 1; addr 2; addr 3] (addr 4)).
  reflexivity.
Defined.

(** ** A new slice is no slice in use *)

Lemma make_done m n :
  ∃ a, make n m = Done a (mkMem (objs m) (<[a := replicate n null]> (arrs m)))
       ∧ arrs m !! a = None.
Proof.
  exists (fresh (dom (arrs m))). split; [done|].
  apply not_elem_of_dom, is_fresh.
Qed.

Lemma with_slice_twice m s us vs :
  with_slice (with_slice m s us) s vs = with_slice m s vs.
Proof. unfold with_slice. simpl. by rewrite insert_insert_eq. Qed.

Lemma with_slice_lookup m s us : arrs (with_slice m s us) !! s = Some us.
Proof. apply lookup_insert_eq. Qed.

Lemma with_slice_lookup_ne m s t us :
  s ≠ t → arrs (with_slice m s us) !! t = arrs m !! t.
Proof. intros. by apply lookup_insert_ne. Qed.

Lemma has_id_with_slice m s us id p :
  has_id (with_slice m s us) id p ↔ has_id m id p.
Proof. unfold has_id. by destruct p. Qed.

(** C6.  List never fails: it returns a nil error and a slice that was not
    in use before, holding the elements of the collection in their order;
    nothing else in memory changes.  Assigning to an index of the returned
    slice changes that slice and leaves the collection as it was. *)
Theorem C6_GetAll_snapshot
    (m : Mem) (r : persistence.MemoryUserRepository) (us : list ptr) :
  arrs m !! persistence.users r = Some us →
  ∃ result,
    persistence.GetAll r m
      = Done (Some result, nil_error) (with_slice m result us) ∧
    arrs m !! result = None ∧
    arrs (with_slice m result us) !! result = Some us ∧
    arrs (with_slice m result us) !! persistence.users r = Some us ∧
    (∀ i p, i < length us →
       ∃ m', slice_set result i p (with_slice m result us) = Done () m' ∧
             arrs m' !! result = Some (<[i := p]> us) ∧
             arrs m' !! persistence.users r = Some us).
Proof.
  intros Hus. destruct (make_done m (length us)) as (a & Hmake & Hfresh).
  assert (a ≠ persistence.users r) as Hne by congruence.
  exists a. split; [|split; [done|split; [apply with_slice_lookup|split]]].
  - unfold persistence.GetAll.
    rewrite (bind_done _ _ _ _ _ (slice_get_done _ _ _ Hus)).
    rewrite (bind_done _ _ _ _ _ Hmake).
    set (m1 := mkMem _ _).
    assert (arrs m1 !! persistence.users r = Some us) as Hus1.
    { subst m1. simpl. by rewrite lookup_insert_ne. }
    assert (arrs m1 !! a = Some (replicate (length us) null)) as Ha1.
    { subst m1. simpl. by rewrite lookup_insert_eq. }
    rewrite (bind_done _ _ m1 () (with_slice m a us)); [done|].
    unfold copy.
    rewrite (bind_done _ _ _ _ _ (slice_get_done _ _ _ Hus1)).
    rewrite (bind_done _ _ _ _ _ (slice_get_done _ _ _ Ha1)).
    rewrite length_replicate, Nat.min_id, firstn_all.
    rewrite drop_ge by (rewrite length_replicate; lia).
    rewrite app_nil_r, (slice_put_done _ _ _ _ Ha1).
    subst m1. unfold with_slice. simpl. by rewrite insert_insert_eq.
  - by rewrite with_slice_lookup_ne.
  - intros i p Hi. eexists. split.
    + by apply (slice_set_done _ _ us); [apply with_slice_lookup|].
    + rewrite with_slice_twice. split; [apply with_slice_lookup|].
      by rewrite with_slice_lookup_ne.
Qed.

(** Listing the seeded repository, then [users[0] = nil] on the result. *)
Lemma C6_witness :
  ∃ result,
    persistence.GetAll sample.repo sample.seeded
      = Done (Some result, nil_error)
          (with_slice sample.seeded result [addr 1; addr 2; addr 3]) ∧
    ∃ m', slice_set result 0 null
            (with_slice sample.seeded result [addr 1; addr 2; addr 3])
          = Done () m' ∧
          arrs m' !! result = Some [null; addr 2; addr 3] ∧
          arrs m' !! persistence.users sample.repo
          = Some [addr 1; addr 2; addr 3].
Proof.
  destruct (C6_GetAll_snapshot sample.seeded sample.repo
              [addr 1; addr 2; addr 3] eq_refl)
    as (result & Hget & _ & _ & _ & Hset).
  exists result. split; [done|]. apply (Hset 0 null). simpl. lia.
Defined.

(** C8.  When a later record [q] at index [j] has the same id as the first
    match [p] at index [i], get returns [p]; update writes index [i] and
    leaves [q] at index [j], as every index after [i]; delete takes out
    index [i], so that [q] is then at index [j - 1], every record after [i]
    having moved down by one.  No user object is touched: [q] still has
    the id afterwards. *)
Theorem C8_duplicates_first_only
    (m : Mem) (r : persistence.MemoryUserRepository) (us : list ptr)
    (id : string) (i j : nat) (p q : ptr) :
  arrs m !! persistence.users r = Some us →
  Forall (valid m) us →
  first_match m id us i p →
  i < j → us !! j = Some q → has_id m id q →
  persistence.GetByID r id m = Done (p, nil_error) m ∧
  (∀ user, has_id m id user →
     let m' := with_slice m (persistence.users r) (<[i := user]> us) in
     persistence.Update r user m = Done (user, nil_error) m' ∧
     <[i := user]> us !! j = Some q ∧
     (∀ k, i < k → <[i := user]> us !! k = us !! k) ∧
     has_id m' id q) ∧
  (let us' := take i us ++ drop (S i) us in
   let m' := with_slice m (persistence.users r) us' in
   persistence.Delete r id m = Done nil_error m' ∧
   us' !! (j - 1) = Some q ∧
   (∀ k, (i ≤ k)%nat → us' !! k = us !! S k) ∧
   has_id m' id q).
Proof.
  intros Hus Hvalid Hfm Hij Hj Hq.
  pose proof (first_match_lt _ _ _ _ _ Hfm) as Hi.
  split; [by eapply GetByID_found|]. split.
  - intros user (y & Hy & <-). simpl. split; [by eapply Update_found|].
    split; [by rewrite list_lookup_insert_ne by lia|].
    split; [|by apply has_id_with_slice].
    intros k Hk. apply list_lookup_insert_ne. lia.
  - simpl. split; [by eapply Delete_found|]. split; [|split].
    + rewrite remove_lookup_ge by lia. rewrite <- Hj. f_equal. lia.
    + intros k Hk. by apply remove_lookup_ge.
    + by apply has_id_with_slice.
Qed.

(** Two records with the id ["a"], at index 0 and at index 2. *)
Lemma C8_witness :
  persistence.GetByID sample.repo "a" sample.doubled
    = Done (addr 1, nil_error) sample.doubled ∧
  persistence.Update sample.repo (addr 3) sample.doubled
    = Done (addr 3, nil_error)
        (with_slice sample.doubled 1 [addr 3; addr 2; addr 3]) ∧
  persistence.Delete sample.repo "a" sample.doubled
    = Done nil_error (with_slice sample.doubled 1 [addr 2; addr 3]).
Proof.
  assert (first_match sample.doubled "a" [addr 1; addr 2; addr 3] 0 (addr 1))
    as Hfm.
  { split; [done|]. split; [by exists sample.john|]. intros j q Hj. lia. }
  assert (has_id sample.doubled "a" (addr 3)) as H3
    by (by exists sample.twin).
  destruct (C8_duplicates_first_only sample.doubled sample.repo
              [addr 1; addr 2; addr 3] "a" 0 2 (addr 1) (addr 3))
    as (Hget & Hupd & Hdel & _); [reflexivity|sample_valid|done|lia|done..|].
  split; [done|]. split; [|done].
  by destruct (Hupd (addr 3) H3) as [? _].
Defined.

(** ** The service *)

(** C2.  Whatever the repository behind the service is, a get, update or
    delete with the empty id, and an update or a create with an empty name
    or an empty email, return a validation error.  The result is the same
    for every implementation of the repository interface, so none of its
    methods has run; the memory is left as it was, except that create has
    by then allocated the object it rejects, which nothing refers to. *)
Theorem C2_validation_precedes_store
    {R : Type} `{!repositories.UserRepository R}
    (s : services.UserService R) (m : Mem) :
  services.GetUserByID s "" m = Done (null, errors_New "invalid user ID") m ∧
  services.DeleteUser s "" m = Done (errors_New "invalid user ID") m ∧
  (∀ name email,
     services.UpdateUser s "" name email m
       = Done (null, errors_New "invalid user ID") m) ∧
  (∀ id name email, name = "" ∨ email = "" →
     ∃ e, ValidationError e ∧
          services.UpdateUser s id name email m = Done (null, e) m) ∧
  (∀ uuid name email, name = "" ∨ email = "" →
     ∃ l, objs m !! l = None ∧
          services.CreateUser s uuid name email m
            = Done (null,
                    errors_New "invalid user data: name and email are required")
                (mkMem (<[l := mkUser uuid name email]> (objs m)) (arrs m))).
Proof.
  split; [done|]. split; [done|]. split; [done|]. split.
  - intros id name email Hempty. unfold services.UpdateUser.
    destruct (decide (id = "")) as [->|Hid].
    + eexists. split; [by left|done].
    + eexists. split; [by right|].
      assert (bool_decide (name = "") || bool_decide (email = "") = true)
        as ->; [|done].
      destruct Hempty as [->| ->]; [done|]. apply orb_true_r.
  - intros uuid name email Hempty.
    exists (fresh (dom (objs m))). split; [apply not_elem_of_dom, is_fresh|].
    unfold services.CreateUser, entities.NewUser.
    set (m1 := mkMem (<[fresh (dom (objs m)) := mkUser uuid name email]>
                        (objs m)) (arrs m)).
    rewrite (bind_done _ _ m (addr (fresh (dom (objs m)))) m1) by done.
    rewrite (bind_done _ _ m1 false m1); [done|].
    unfold entities.IsValid.
    rewrite (bind_done _ _ m1 (mkUser uuid name email) m1).
    + go_unfold. f_equal. simpl.
      destruct Hempty as [->| ->]; [done|]. apply andb_false_r.
    + apply load_done. simpl. apply lookup_insert_eq.
Qed.

(** The service in front of the repository whose methods all panic. *)
Lemma C2_witness :
  (∃ e, ValidationError e ∧
        services.UpdateUser (services.mkService ()) "b" "" "jane@example.com"
          sample.seeded = Done (null, e) sample.seeded) ∧
  (∃ l, objs sample.seeded !! l = None ∧
        services.CreateUser (services.mkService ()) "d" "Dora" ""
          sample.seeded
        = Done (null,
                errors_New "invalid user data: name and email are required")
            (mkMem (<[l := mkUser "d" "Dora" ""]> (objs sample.seeded))
                   (arrs sample.seeded))).
Proof.
  destruct (C2_validation_precedes_store (services.mkService ())
              sample.seeded) as (_ & _ & _ & Hupd & Hcre).
  split.
  - apply Hupd. by left.
  - apply Hcre. by right.
Defined.

(** ** What the store's get and update can return *)

Lemma slice_get_inv m s us m' :
  slice_get s m = Done us m' → arrs m !! s = Some us ∧ m' = m.
Proof. unfold slice_get. destruct (arrs m !! s); naive_solver. Qed.

Lemma GetByID_loop_inv id us i m found m' :
  range us i (λ _ user,
      x ← load user;
      if decide (ID x = id) then mret (Some (user, nil_error))
      else mret None) m = Done found m' →
  m' = m ∧
  (found = None ∨ ∃ p, found = Some (p, nil_error) ∧ has_id m id p).
Proof.
  revert i. induction us as [|q us IH]; intros i; simpl.
  - intros [= <- <-]. by split; [|left].
  - intros H. apply bind_inv in H as (res & m1 & Hb & H).
    apply bind_inv in Hb as (x & m2 & Hx & Hb).
    apply load_inv in Hx as [Hx ->].
    destruct (decide (ID x = id)) as [E|E]; injection Hb as <- <-.
    + injection H as <- <-. split; [done|]. right. exists q.
      split; [done|]. by exists x.
    + by apply IH in H.
Qed.

Lemma GetByID_inv r id m p e m' :
  persistence.GetByID r id m = Done (p, e) m' →
  m' = m ∧
  ((p = null ∧ e = NotFound) ∨ (e = nil_error ∧ has_id m id p)).
Proof.
  unfold persistence.GetByID. intros H.
  apply bind_inv in H as (us & m1 & Hus & H).
  apply slice_get_inv in Hus as [Hus ->].
  apply bind_inv in H as (found & m2 & Hloop & H).
  apply GetByID_loop_inv in Hloop as [-> [->|(p' & -> & Hp')]];
    inversion H; subst; split; auto.
Qed.

Lemma Update_inv r user m p e m' :
  persistence.Update r user m = Done (p, e) m' →
  e = nil_error ∨ e = NotFound.
Proof.
  unfold persistence.Update. intros H.
  apply bind_inv in H as (us & m1 & Hus & H).
  apply bind_inv in H as (found & m2 & Hloop & H).
  destruct found as [a|]; inversion H; subst; [|by right].
  apply range_some_inv in Hloop as (j & q & m3 & _ & Hb).
  apply bind_inv in Hb as (x & m4 & _ & Hb).
  apply bind_inv in Hb as (y & m5 & _ & Hb).
  destruct (decide (ID x = ID y)); [|done].
  apply bind_inv in Hb as (? & m6 & _ & Hb). inversion Hb. by left.
Qed.

(** ** The entity *)

Lemma new_done u m :
  ∃ l, objs m !! l = None ∧
       new u m = Done (addr l) (mkMem (<[l := u]> (objs m)) (arrs m)).
Proof.
  exists (fresh (dom (objs m))). split; [|done].
  apply not_elem_of_dom, is_fresh.
Qed.

Lemma IsValid_done m p u :
  deref m p = Some u →
  entities.IsValid p m
  = Done (bool_decide (Name u ≠ "") && bool_decide (Email u ≠ "")) m.
Proof.
  intros Hu. unfold entities.IsValid.
  by rewrite (bind_done _ _ _ _ _ (load_done _ _ _ Hu)).
Qed.

Lemma modify_inv p f m m' :
  modify p f m = Done () m' →
  ∃ l u, p = addr l ∧ objs m !! l = Some u ∧
         m' = mkMem (<[l := f u]> (objs m)) (arrs m).
Proof.
  unfold modify. destruct p as [|l]; [done|].
  destruct (objs m !! l) as [u|] eqn:E; [|done].
  intros [= <-]. by exists l, u.
Qed.

Lemma mutators_then_IsValid existingUser name email m0 m1 m2 :
  name ≠ "" → email ≠ "" →
  entities.UpdateName existingUser name m0 = Done () m1 →
  entities.UpdateEmail existingUser email m1 = Done () m2 →
  entities.IsValid existingUser m2 = Done true m2.
Proof.
  intros Hn He H1 H2. unfold entities.UpdateName in H1.
  unfold entities.UpdateEmail in H2.
  apply modify_inv in H1 as (l & u & -> & Hu & ->).
  apply modify_inv in H2 as (l' & u' & [= <-] & Hu' & ->).
  simpl in Hu'. rewrite lookup_insert_eq in Hu'. injection Hu' as <-.
  erewrite IsValid_done; [|simpl; apply lookup_insert_eq]. simpl.
  by rewrite !bool_decide_eq_true_2.
Qed.

(** C9.  In [UpdateUser], with a non-empty name and a non-empty email: in
    whatever memory the two mutators have run on the fetched record,
    [IsValid] on that record returns true there; and [UpdateUser] on the
    in-memory repository never returns the error of the second check,
    whose text neither the id check nor the repository produces. *)
Theorem C9_UpdateUser_recheck_passes
    (r : persistence.MemoryUserRepository) (id name email : string)
    (m : Mem) :
  name ≠ "" → email ≠ "" →
  (∀ existingUser m0 m1 m2,
     entities.UpdateName existingUser name m0 = Done () m1 →
     entities.UpdateEmail existingUser email m1 = Done () m2 →
     entities.IsValid existingUser m2 = Done true m2) ∧
  (∀ res m',
     services.UpdateUser (services.mkService r) id name email m
       = Done res m' →
     res.2 ≠ errors_New "invalid user data: name and email are required").
Proof.
  intros Hn He. split.
  - intros existingUser m0 m1 m2. by apply mutators_then_IsValid.
  - intros res m'. unfold services.UpdateUser.
    destruct (decide (id = "")) as [_|_]; [by intros [= <- _]|].
    rewrite !bool_decide_eq_false_2 by done. simpl.
    intros H. apply bind_inv in H as ([existingUser err] & m1 & Hget & H).
    apply GetByID_inv in Hget as [-> Hget].
    destruct (decide (err ≠ nil_error)) as [Herr|_].
    { injection H as <- _. destruct Hget as [[_ ->]|[-> _]]; done. }
    destruct (decide (existingUser = null)) as [_|_];
      [by injection H as <- _|].
    apply bind_inv in H as ([] & m2 & H1 & H).
    apply bind_inv in H as ([] & m3 & H2 & H).
    apply bind_inv in H as (valid & m4 & Hv & H).
    rewrite (mutators_then_IsValid _ _ _ _ _ _ Hn He H1 H2) in Hv.
    injection Hv as <- <-. simpl in H. destruct res as [p e].
    by apply Update_inv in H as [->| ->].
Qed.

(** The second record of the seeded repository gets a new name and email. *)
Lemma C9_witness :
  entities.IsValid (addr 2) sample.renamed = Done true sample.renamed ∧
  (∀ res m',
     services.UpdateUser (services.mkService sample.repo) "b"
       "Jane Updated" "jane.updated@example.com" sample.seeded
       = Done res m' →
     res.2 ≠ errors_New "invalid user data: name and email are required").
Proof.
  destruct (C9_UpdateUser_recheck_passes sample.repo "b" "Jane Updated"
              "jane.updated@example.com" sample.seeded) as [Hvalid Hnever];
    [done|done|].
  split; [|done].
  eapply (Hvalid (addr 2) sample.seeded); [reflexivity|].
  vm_compute. reflexivity.
Defined.

(** The same call, run: it returns the record and a nil error. *)
Example UpdateUser_seeded :
  services.UpdateUser (services.mkService sample.repo) "b"
    "Jane Updated" "jane.updated@example.com" sample.seeded
  = Done (addr 2, nil_error) sample.renamed.
Proof. vm_compute. reflexivity. Qed.

(** ** Delete behind the service *)

(** The scan of [GetByID] and the scan of [Delete] read the same objects
    in the same order and stop at the same element. *)
Lemma scans_agree r id us i m :
  let get := range us i (λ _ user,
      x ← load user;
      if decide (ID x = id) then mret (Some (user, nil_error))
      else mret None) in
  let del := range us i (λ i user,
      x ← load user;
      if decide (ID x = id) then
        now ← slice_get (persistence.users r);
        slice_put (persistence.users r) (take i now ++ drop (S i) now);;
        mret (Some nil_error)
      else mret None) in
  (get m = Panic ∧ del m = Panic) ∨
  (get m = Done None m ∧ del m = Done None m) ∨
  (∃ l, get m = Done (Some (addr l, nil_error)) m).
Proof.
  revert i. induction us as [|q us IH]; intros i; simpl; [by right; left|].
  go_unfold. unfold load in *.
  destruct (deref m q) as [x|] eqn:Hq; simpl; [|by left].
  destruct (decide (ID x = id)) as [E|E]; simpl; [|apply IH].
  right. right. destruct q as [|l]; [done|]. by exists l.
Qed.

Lemma GetByID_Delete_cases r id m :
  (persistence.GetByID r id m = Panic ∧ persistence.Delete r id m = Panic) ∨
  (persistence.GetByID r id m = Done (null, NotFound) m ∧
   persistence.Delete r id m = Done NotFound m) ∨
  (∃ l, persistence.GetByID r id m = Done (addr l, nil_error) m).
Proof.
  unfold persistence.GetByID, persistence.Delete.
  destruct (arrs m !! persistence.users r) as [us|] eqn:Hus.
  - rewrite !(bind_done _ _ _ _ _ (slice_get_done _ _ _ Hus)).
    destruct (scans_agree r id us 0 m) as [[Hg Hd]|[[Hg Hd]|[l Hg]]].
    + left. by rewrite (bind_panic _ _ _ Hg), (bind_panic _ _ _ Hd).
    + right. left.
      by rewrite (bind_done _ _ _ _ _ Hg), (bind_done _ _ _ _ _ Hd).
    + right. right. exists l. by rewrite (bind_done _ _ _ _ _ Hg).
  - left. assert (slice_get (persistence.users r) m = Panic) as Hp
      by (unfold slice_get; by rewrite Hus).
    by rewrite !(bind_panic _ _ _ Hp).
Qed.

(** C10.  For a non-empty id, [DeleteUser] on the in-memory repository is
    [Delete]: in every memory the two have the same outcome, that is the
    same error value and the same memory afterwards.  On a collection of
    records the outcome is a nil error when some record has the id and
    "user not found", with the memory left as it was, when none has. *)
Theorem C10_DeleteUser_is_Delete
    (r : persistence.MemoryUserRepository) (id : string) (m : Mem) :
  id ≠ "" →
  services.DeleteUser (services.mkService r) id m = persistence.Delete r id m
  ∧ (∀ us, arrs m !! persistence.users r = Some us → Forall (valid m) us →
       ((∃ q, q ∈ us ∧ has_id m id q) →
        ∃ m', persistence.Delete r id m = Done nil_error m') ∧
       ((∀ q, q ∈ us → ¬ has_id m id q) →
        persistence.Delete r id m = Done NotFound m)).
Proof.
  intros Hid. split.
  - unfold services.DeleteUser. rewrite decide_False by done. simpl.
    destruct (GetByID_Delete_cases r id m) as [[Hg Hd]|[[Hg Hd]|[l Hg]]].
    + by rewrite (bind_panic _ _ _ Hg), Hd.
    + by rewrite (bind_done _ _ _ _ _ Hg), Hd.
    + by rewrite (bind_done _ _ _ _ _ Hg).
  - intros us Hus Hvalid. split.
    + intros Hex.
      destruct (first_match_exists _ _ _ Hvalid Hex) as (i & p & Hfm).
      eexists. by eapply Delete_found.
    + intros Habs. by eapply Delete_absent.
Qed.

(** Deleting the second record of the seeded repository through the
    service, and an id that is nowhere in it. *)
Lemma C10_witness :
  services.DeleteUser (services.mkService sample.repo) "b" sample.seeded
    = persistence.Delete sample.repo "b" sample.seeded ∧
  persistence.Delete sample.repo "b" sample.seeded
    = Done nil_error (with_slice sample.seeded 1 [addr 1; addr 3]) ∧
  services.DeleteUser (services.mkService sample.repo) "nonexistent-id"
    sample.seeded = Done NotFound sample.seeded.
Proof.
  destruct (C10_DeleteUser_is_Delete sample.repo "b" sample.seeded)
    as [Heq _]; [done|].
  destruct (C10_DeleteUser_is_Delete sample.repo "nonexistent-id"
              sample.seeded) as [Heq' Hdel]; [done|].
  split; [done|]. split; [by vm_compute|].
  rewrite Heq'.
  apply (Hdel [addr 1; addr 2; addr 3]); [reflexivity|sample_valid|].
  sample_absent.
Defined.

(** ** Create, then get *)

(** A new object leaves the records that were there as they were. *)
Lemma deref_after_new m l u q :
  objs m !! l = None → valid m q →
  deref (mkMem (<[l := u]> (objs m)) (arrs m)) q = deref m q.
Proof.
  intros Hl [v Hv]. destruct q as [|l']; [done|]. simpl in *.
  apply lookup_insert_ne. congruence.
Qed.

Lemma CreateUser_valid r uuid name email m us :
  arrs m !! persistence.users r = Some us → name ≠ "" → email ≠ "" →
  ∃ l, objs m !! l = None ∧
       services.CreateUser (services.mkService r) uuid name email m
       = Done (addr l, nil_error)
           (with_slice (mkMem (<[l := mkUser uuid name email]> (objs m))
                              (arrs m))
                       (persistence.users r) (us ++ [addr l])).
Proof.
  intros Hus Hn He.
  destruct (new_done (mkUser uuid name email) m) as (l & Hl & Hnew).
  exists l. split; [done|].
  unfold services.CreateUser, entities.NewUser.
  rewrite (bind_done _ _ _ _ _ Hnew). set (m1 := mkMem _ _).
  assert (deref m1 (addr l) = Some (mkUser uuid name email)) as Hu
    by apply lookup_insert_eq.
  rewrite (bind_done _ _ _ _ _ (IsValid_done _ _ _ Hu)). simpl.
  rewrite !bool_decide_eq_true_2 by done. simpl.
  unfold persistence.Create.
  assert (arrs m1 !! persistence.users r = Some us) as Hus1 by done.
  rewrite (bind_done _ _ _ _ _ (slice_get_done _ _ _ Hus1)).
  by rewrite (bind_done _ _ _ _ _ (slice_put_done _ _ _ _ Hus1)).
Qed.

(** C7, as stated, fails.  The seeded repository holds John Doe under the
    id ["a"].  Creating Johanna with that id succeeds, through the store
    as through the service when the generator yields ["a"], and get with
    the id of the created record then returns John Doe, the first record
    with that id, whose name and email are not those of the created one. *)
Lemma C7_counterexample :
  let johanna := mkUser "a" "Johanna" "johanna@example.com" in
  let s := services.mkService sample.repo in
  (∃ created m1 got,
     services.CreateUser s "a" "Johanna" "johanna@example.com" sample.seeded
       = Done (created, nil_error) m1 ∧
     deref m1 created = Some johanna ∧
     services.GetUserByID s "a" m1 = Done (got, nil_error) m1 ∧
     deref m1 got = Some sample.john ∧
     deref m1 got ≠ deref m1 created) ∧
  (∃ created m0 m1 got,
     entities.NewUserWithID "a" "Johanna" "johanna@example.com" sample.seeded
       = Done created m0 ∧
     persistence.Create sample.repo created m0
       = Done (created, nil_error) m1 ∧
     deref m1 created = Some johanna ∧
     persistence.GetByID sample.repo "a" m1 = Done (got, nil_error) m1 ∧
     deref m1 got = Some sample.john ∧
     deref m1 got ≠ deref m1 created).
Proof.
  simpl. split.
  - eexists (addr 4), _, (addr 1).
    split; [vm_compute; reflexivity|].
    split; [vm_compute; reflexivity|].
    split; [vm_compute; reflexivity|].
    split; [vm_compute; reflexivity|]. by vm_compute.
  - eexists (addr 4), _, _, (addr 1).
    split; [vm_compute; reflexivity|].
    split; [vm_compute; reflexivity|].
    split; [vm_compute; reflexivity|].
    split; [vm_compute; reflexivity|].
    split; [vm_compute; reflexivity|]. by vm_compute.
Qed.

(** C7, amended.  In a store none of whose records has the generated id,
    creating a user with a non-empty name and a non-empty email succeeds,
    and get with that id then returns the created record: the same
    pointer, hence the same id, name and email.  The service's get does
    the same when the id is not the empty string. *)
Theorem C7_create_then_get_fresh_id
    (m : Mem) (r : persistence.MemoryUserRepository) (us : list ptr)
    (uuid name email : string) :
  arrs m !! persistence.users r = Some us →
  Forall (valid m) us →
  (∀ q, q ∈ us → ¬ has_id m uuid q) →
  name ≠ "" → email ≠ "" →
  ∃ created m',
    services.CreateUser (services.mkService r) uuid name email m
      = Done (created, nil_error) m' ∧
    deref m' created = Some (mkUser uuid name email) ∧
    persistence.GetByID r uuid m' = Done (created, nil_error) m' ∧
    (uuid ≠ "" →
     services.GetUserByID (services.mkService r) uuid m'
       = Done (created, nil_error) m').
Proof.
  intros Hus Hvalid Habs Hn He.
  destruct (CreateUser_valid r uuid name email m us Hus Hn He)
    as (l & Hl & Hcreate).
  eexists _, _. split; [exact Hcreate|].
  set (m1 := mkMem _ _). set (m' := with_slice m1 _ _).
  assert (deref m' (addr l) = Some (mkUser uuid name email)) as Hu
    by apply lookup_insert_eq.
  assert (∀ q, valid m q → deref m' q = deref m q) as Hsame.
  { intros q Hq. by apply (deref_after_new m l). }
  assert (persistence.GetByID r uuid m' = Done (addr l, nil_error) m')
    as Hget.
  { apply (GetByID_found m' r (us ++ [addr l]) (with_slice_lookup _ _ _))
      with (i := length us).
    - apply Forall_app. split.
      + eapply Forall_impl; [exact Hvalid|]. intros q Hq.
        unfold valid. by rewrite Hsame.
      + repeat constructor. by eexists.
    - split; [|split].
      + rewrite lookup_app_r by lia. by rewrite Nat.sub_diag.
      + by eexists.
      + intros j q Hj Hq (v & Hv & Hid).
        rewrite lookup_app_l in Hq by done.
        assert (valid m q) as Hvq.
        { rewrite Forall_lookup in Hvalid. by eapply Hvalid. }
        rewrite Hsame in Hv by done.
        apply (Habs q); [by eapply list_elem_of_lookup_2|by exists v]. }
  split; [done|]. split; [done|].
  intros Hne. unfold services.GetUserByID. by rewrite decide_False.
Qed.

(** Creating Dora in the seeded repository when the generator yields the
    id ["d"], which no record has. *)
Lemma C7_witness :
  ∃ created m',
    services.CreateUser (services.mkService sample.repo) "d" "Dora"
      "dora@example.com" sample.seeded = Done (created, nil_error) m' ∧
    deref m' created = Some (mkUser "d" "Dora" "dora@example.com") ∧
    persistence.GetByID sample.repo "d" m' = Done (created, nil_error) m' ∧
    ("d" ≠ "" →
     services.GetUserByID (services.mkService sample.repo) "d" m'
       = Done (created, nil_error) m').
Proof.
  apply (C7_create_then_get_fresh_id sample.seeded sample.repo
           [addr 1; addr 2; addr 3] "d" "Dora" "dora@example.com");
    [reflexivity|sample_valid|sample_absent|done|done].
Defined.

(** ** Update through the service *)

(** Overwriting an object by one with the same [ID] changes no answer to
    "does this pointer have this id". *)
Lemma has_id_overwrite m l u y id q :
  objs m !! l = Some u → ID y = ID u →
  has_id (mkMem (<[l := y]> (objs m)) (arrs m)) id q ↔ has_id m id q.
Proof.
  intros Hu Hy. unfold has_id. destruct q as [|l']; [done|]. simpl.
  destruct (decide (l = l')) as [<-|Hne].
  - rewrite lookup_insert_eq, Hu. split; intros (v & [= <-] & E); eauto.
    + exists u. split; [done|congruence].
    + exists y. split; [done|congruence].
  - by rewrite lookup_insert_ne.
Qed.

Lemma first_match_overwrite m l u y id us i p :
  objs m !! l = Some u → ID y = ID u →
  first_match m id us i p →
  first_match (mkMem (<[l := y]> (objs m)) (arrs m)) id us i p.
Proof.
  intros Hu Hy (Hi & Hp & Hlt). split; [done|]. split.
  - by apply (has_id_overwrite m l u y).
  - intros j q Hj Hq Hid. apply (Hlt j q Hj Hq).
    by apply (has_id_overwrite m l u y) in Hid.
Qed.

Lemma valid_overwrite m l u y q :
  objs m !! l = Some u → valid m q →
  valid (mkMem (<[l := y]> (objs m)) (arrs m)) q.
Proof.
  intros Hu Hq. destruct q as [|l']; [done|]. unfold valid in *. simpl in *.
  destruct (decide (l = l')) as [<-|Hne].
  - by rewrite lookup_insert_eq.
  - by rewrite lookup_insert_ne.
Qed.

(** With valid arguments and a record under the id, [UpdateUser] returns
    the stored pointer itself: the record has been rewritten in place
    before the store is asked to update, and the store then writes that
    pointer back where it already was. *)
Lemma UpdateUser_found m r us id i l name email :
  arrs m !! persistence.users r = Some us →
  Forall (valid m) us →
  first_match m id us i (addr l) →
  id ≠ "" → name ≠ "" → email ≠ "" →
  services.UpdateUser (services.mkService r) id name email m
  = Done (addr l, nil_error)
      (mkMem (<[l := mkUser id name email]> (objs m)) (arrs m)).
Proof.
  intros Hus Hvalid Hfm Hid Hn He.
  pose proof Hfm as (Hi & (u & Hu & HID) & _). simpl in Hu.
  unfold services.UpdateUser. rewrite decide_False by done.
  rewrite !bool_decide_eq_false_2 by done. simpl.
  rewrite (bind_done _ _ _ _ _ (GetByID_found m r us Hus Hvalid id i _ Hfm)).
  simpl.
  set (u1 := mkUser (ID u) name (Email u)).
  set (m1 := mkMem (<[l := u1]> (objs m)) (arrs m)).
  assert (entities.UpdateName (addr l) name m = Done () m1) as H1.
  { unfold entities.UpdateName, modify. by rewrite Hu. }
  set (m2 := mkMem (<[l := mkUser id name email]> (objs m)) (arrs m)).
  assert (entities.UpdateEmail (addr l) email m1 = Done () m2) as H2.
  { unfold entities.UpdateEmail, modify. subst m1 m2. simpl.
    rewrite lookup_insert_eq, insert_insert_eq. simpl. by rewrite HID. }
  rewrite (bind_done _ _ _ _ _ H1), (bind_done _ _ _ _ _ H2).
  rewrite (bind_done _ _ _ _ _
             (mutators_then_IsValid _ _ _ _ _ _ Hn He H1 H2)). simpl.
  assert (deref m2 (addr l) = Some (mkUser id name email)) as Hy
    by apply lookup_insert_eq.
  rewrite (Update_found m2 r us Hus) with (y := mkUser id name email)
                                          (i := i) (p := addr l).
  - f_equal. unfold with_slice. subst m2. simpl.
    rewrite list_insert_id by done. by rewrite (insert_id (arrs m) _ _ Hus).
  - eapply Forall_impl; [exact Hvalid|]. intros q Hq.
    by apply (valid_overwrite m l u).
  - done.
  - simpl. apply (first_match_overwrite m l u); [done|by simpl|done].
Qed.

(** ** Runs *)

(** The constructor builds the seeded sample state when the generator
    yields the ids ["a"], ["b"], ["c"]. *)
Example NewMemoryUserRepository_seeded :
  persistence.NewMemoryUserRepository "a" "b" "c" sample.empty
  = Done sample.repo sample.seeded.
Proof. vm_compute. reflexivity. Qed.

(** Create Alice, get her, delete her, get her again: the second get
    reports "user not found" and the collection is the seeded one. *)
Example alice_scenario :
  let s := services.mkService sample.repo in
  (created ← services.CreateUser s "d" "Alice" "alice@example.com";
   got ← services.GetUserByID s "d";
   x ← load got.1;
   gone ← services.DeleteUser s "d";
   again ← services.GetUserByID s "d";
   now ← slice_get (persistence.users sample.repo);
   mret (created, got, x, gone, again, now)) sample.seeded
  = Done ((addr 4, nil_error), (addr 4, nil_error),
          mkUser "d" "Alice" "alice@example.com", nil_error,
          (null, NotFound), [addr 1; addr 2; addr 3])
      (mkMem (<[4%positive := mkUser "d" "Alice" "alice@example.com"]>
                (objs sample.seeded))
             (arrs sample.seeded)).
Proof. vm_compute. reflexivity. Qed.

(** * Further properties of the store *)

Lemma present_or_absent m id us :
  Forall (valid m) us →
  (∃ q, q ∈ us ∧ has_id m id q) ∨ (∀ q, q ∈ us → ¬ has_id m id q).
Proof.
  induction 1 as [|x us Hx _ [(q & Hq & Hid)|Habs]].
  - right. intros q Hq. by apply elem_of_nil in Hq.
  - left. exists q. split; [by apply elem_of_cons; right|done].
  - destruct (has_id_dec m id x Hx) as [Y|N].
    + left. exists x. split; [by apply elem_of_cons; left|done].
    + right. intros q [->|Hq]%elem_of_cons; auto.
Qed.

Lemma store_ok_with_slice m r vs :
  Forall (valid m) vs → store_ok (with_slice m (persistence.users r) vs) r.
Proof. intros Hvs. exists vs. split; [apply with_slice_lookup|done]. Qed.

Lemma Forall_remove (P : ptr → Prop) us i :
  Forall P us → Forall P (take i us ++ drop (S i) us).
Proof.
  intros H. apply Forall_app. split; [by apply Forall_take|by apply Forall_drop].
Qed.

Lemma Create_done m r us user :
  arrs m !! persistence.users r = Some us →
  persistence.Create r user m
  = Done (user, nil_error) (with_slice m (persistence.users r) (us ++ [user])).
Proof.
  intros Hus. unfold persistence.Create.
  rewrite (bind_done _ _ _ _ _ (slice_get_done _ _ _ Hus)).
  by rewrite (bind_done _ _ _ _ _ (slice_put_done _ _ _ _ Hus)).
Qed.

Lemma copy_into_new m a n src us :
  arrs m !! a = Some (replicate n null) → arrs m !! src = Some us →
  n = length us →
  copy a src m = Done () (with_slice m a us).
Proof.
  intros Ha Hsrc ->. unfold copy.
  rewrite (bind_done _ _ _ _ _ (slice_get_done _ _ _ Hsrc)).
  rewrite (bind_done _ _ _ _ _ (slice_get_done _ _ _ Ha)).
  rewrite length_replicate, Nat.min_id, firstn_all.
  rewrite drop_ge by (rewrite length_replicate; lia).
  rewrite app_nil_r. by apply (slice_put_done _ _ _ _ Ha).
Qed.

Lemma GetAll_done m r us :
  arrs m !! persistence.users r = Some us →
  ∃ a, arrs m !! a = None ∧
       persistence.GetAll r m = Done (Some a, nil_error) (with_slice m a us).
Proof.
  intros Hus. destruct (make_done m (length us)) as (a & Hmake & Hfresh).
  assert (a ≠ persistence.users r) as Hne by congruence.
  exists a. split; [done|]. unfold persistence.GetAll.
  rewrite (bind_done _ _ _ _ _ (slice_get_done _ _ _ Hus)).
  rewrite (bind_done _ _ _ _ _ Hmake). set (m1 := mkMem _ _).
  rewrite (bind_done _ _ m1 () (with_slice m1 a us)).
  - subst m1. unfold with_slice. simpl. by rewrite insert_insert_eq.
  - apply copy_into_new with (n := length us); [|subst m1; simpl|done].
    + subst m1. simpl. apply lookup_insert_eq.
    + by rewrite lookup_insert_ne.
Qed.

(** The store never panics on a well-formed store and keeps it
    well-formed: get, list and delete for every argument, create and
    update for every pointer to a user object. *)
Theorem store_ok_kept (m : Mem) (r : persistence.MemoryUserRepository) :
  store_ok m r →
  (∀ id, ∃ res, persistence.GetByID r id m = Done res m) ∧
  (∃ res m', persistence.GetAll r m = Done res m' ∧ store_ok m' r) ∧
  (∀ user, valid m user →
     ∃ res m', persistence.Create r user m = Done res m' ∧ store_ok m' r) ∧
  (∀ user, valid m user →
     ∃ res m', persistence.Update r user m = Done res m' ∧ store_ok m' r) ∧
  (∀ id, ∃ e m', persistence.Delete r id m = Done e m' ∧ store_ok m' r).
Proof.
  intros (us & Hus & Hvalid). split; [|split; [|split; [|split]]].
  - intros id. destruct (present_or_absent m id us Hvalid) as [Hex|Habs].
    + destruct (first_match_exists _ _ _ Hvalid Hex) as (i & p & Hfm).
      eexists. by eapply GetByID_found.
    + eexists. by eapply GetByID_absent.
  - destruct (GetAll_done m r us Hus) as (a & Hfresh & Hget).
    eexists _, _. split; [exact Hget|]. exists us.
    split; [|done]. rewrite with_slice_lookup_ne; [done|congruence].
  - intros user Huser.
    eexists _, _. split; [by apply Create_done|]. apply store_ok_with_slice.
    apply Forall_app. split; [done|by repeat constructor].
  - intros user [y Hy].
    destruct (present_or_absent m (ID y) us Hvalid) as [Hex|Habs].
    + destruct (first_match_exists _ _ _ Hvalid Hex) as (i & p & Hfm).
      eexists _, _. split; [by eapply Update_found|].
      apply store_ok_with_slice, Forall_insert; [done|by exists y].
    + eexists _, _. split; [by eapply Update_absent|]. by exists us.
  - intros id. destruct (present_or_absent m id us Hvalid) as [Hex|Habs].
    + destruct (first_match_exists _ _ _ Hvalid Hex) as (i & p & Hfm).
      eexists _, _. split; [by eapply Delete_found|].
      by apply store_ok_with_slice, Forall_remove.
    + eexists _, _. split; [by eapply Delete_absent|]. by exists us.
Qed.

Lemma store_ok_kept_witness :
  (∃ res, persistence.GetByID sample.repo "b" sample.seeded
          = Done res sample.seeded) ∧
  (∃ e m', persistence.Delete sample.repo "b" sample.seeded = Done e m' ∧
           store_ok m' sample.repo).
Proof.
  destruct (store_ok_kept sample.seeded sample.repo)
    as (Hget & _ & _ & _ & Hdel).
  - exists [addr 1; addr 2; addr 3]. split; [done|sample_valid].
  - split; [apply Hget|apply Hdel].
Defined.

(** Get is read-only and sound in every memory, well-formed or not:
    whenever it returns, the memory is the one it started in, and it
    returns either nil with "user not found" or, with a nil error, a
    non-nil pointer to a record that has the requested id. *)
Theorem GetByID_read_only_sound
    (r : persistence.MemoryUserRepository) (id : string) (m m' : Mem)
    (p : ptr) (e : error) :
  persistence.GetByID r id m = Done (p, e) m' →
  m' = m ∧
  ((p = null ∧ e = NotFound) ∨
   (e = nil_error ∧ ∃ l u, p = addr l ∧ objs m !! l = Some u ∧ ID u = id)).
Proof.
  intros H. apply GetByID_inv in H as [-> [H|[-> (u & Hu & Hid)]]].
  - by split; [|left].
  - split; [done|]. right. split; [done|].
    destruct p as [|l]; [done|]. by exists l, u.
Qed.

Lemma GetByID_read_only_sound_witness :
  persistence.GetByID sample.repo "b" sample.seeded
    = Done (addr 2, nil_error) sample.seeded ∧
  ∃ l u, addr 2 = addr l ∧ objs sample.seeded !! l = Some u ∧ ID u = "b".
Proof.
  assert (persistence.GetByID sample.repo "b" sample.seeded
          = Done (addr 2, nil_error) sample.seeded) as Hrun by by vm_compute.
  split; [done|].
  destruct (GetByID_read_only_sound sample.repo "b" sample.seeded
              sample.seeded (addr 2) nil_error Hrun) as [_ [[? _]|[_ H]]];
    done.
Defined.

(** Update, then get: when some record has the id of the record passed
    in, update succeeds and get with that id then returns the very pointer
    that was passed in. *)
Theorem Update_then_GetByID
    (m : Mem) (r : persistence.MemoryUserRepository) (us : list ptr)
    (user : ptr) (y : User) :
  arrs m !! persistence.users r = Some us →
  Forall (valid m) us →
  deref m user = Some y →
  (∃ q, q ∈ us ∧ has_id m (ID y) q) →
  ∃ m', persistence.Update r user m = Done (user, nil_error) m' ∧
        persistence.GetByID r (ID y) m' = Done (user, nil_error) m' ∧
        deref m' user = Some y.
Proof.
  intros Hus Hvalid Hy Hex.
  destruct (first_match_exists _ _ _ Hvalid Hex) as (i & p & Hfm).
  pose proof (first_match_lt _ _ _ _ _ Hfm) as Hi.
  eexists. split; [by eapply Update_found|]. split; [|done].
  apply (GetByID_found _ r (<[i := user]> us) (with_slice_lookup _ _ _))
    with (i := i).
  - apply Forall_insert; [done|by exists y].
  - destruct Hfm as (_ & _ & Hlt). split; [|split].
    + by apply list_lookup_insert_eq.
    + by exists y.
    + intros j q Hj Hq. rewrite list_lookup_insert_ne in Hq by lia.
      rewrite has_id_with_slice. by eapply Hlt.
Qed.

Lemma Update_then_GetByID_witness :
  ∃ m', persistence.Update sample.repo (addr 4) sample.staged
          = Done (addr 4, nil_error) m' ∧
        persistence.GetByID sample.repo "b" m' = Done (addr 4, nil_error) m' ∧
        deref m' (addr 4) = Some sample.jane'.
Proof.
  apply (Update_then_GetByID sample.staged sample.repo
           [addr 1; addr 2; addr 3] (addr 4) sample.jane');
    [reflexivity|sample_valid|reflexivity|].
  exists (addr 2). split; [set_solver|]. by exists sample.jane.
Defined.

(** Delete, then get: after a successful delete, get with the same id
    reports "user not found" when no other record had the id, and returns
    the next record with that id when there is one. *)
Theorem Delete_then_GetByID
    (m : Mem) (r : persistence.MemoryUserRepository) (us : list ptr)
    (id : string) (i : nat) (p : ptr) :
  arrs m !! persistence.users r = Some us →
  Forall (valid m) us →
  first_match m id us i p →
  ∃ m', persistence.Delete r id m = Done nil_error m' ∧
    ((∀ j q, j ≠ i → us !! j = Some q → ¬ has_id m id q) →
     persistence.GetByID r id m' = Done (null, NotFound) m') ∧
    (∀ j q, i < j → us !! j = Some q → has_id m id q →
       (∀ k q', i < k → k < j → us !! k = Some q' → ¬ has_id m id q') →
       persistence.GetByID r id m' = Done (q, nil_error) m').
Proof.
  intros Hus Hvalid Hfm.
  pose proof (first_match_lt _ _ _ _ _ Hfm) as Hi.
  destruct Hfm as (Hp & Hpid & Hlt).
  eexists. split; [by eapply Delete_found|].
  set (us' := take i us ++ drop (S i) us).
  assert (Forall (valid (with_slice m (persistence.users r) us')) us')
    as Hvalid' by by apply Forall_remove.
  assert (∀ k x, us' !! k = Some x →
            us !! (if decide (k < i) then k else S k) = Some x) as Hback.
  { intros k x Hk. subst us'. destruct (decide (k < i)).
    - by rewrite remove_lookup_lt in Hk.
    - by rewrite remove_lookup_ge in Hk by lia. }
  split.
  - intros Huniq.
    apply (GetByID_absent _ r us' (with_slice_lookup _ _ _) Hvalid').
    intros q Hq Hid. apply list_elem_of_lookup_1 in Hq as [k Hk].
    apply Hback in Hk. apply has_id_with_slice in Hid.
    destruct (decide (k < i)).
    + apply (Huniq k q); [lia|done|done].
    + apply (Huniq (S k) q); [lia|done|done].
  - intros j q Hij Hj Hq Hbetween.
    apply (GetByID_found _ r us' (with_slice_lookup _ _ _) Hvalid')
      with (i := j - 1).
    split; [|split].
    + subst us'. rewrite remove_lookup_ge by lia. rewrite <- Hj. f_equal. lia.
    + by apply has_id_with_slice.
    + intros k x Hk Hx Hid. apply Hback in Hx. apply has_id_with_slice in Hid.
      destruct (decide (k < i)).
      * by apply (Hlt k x).
      * apply (Hbetween (S k) x); [lia|lia|done|done].
Qed.

Lemma Delete_then_GetByID_witness :
  ∃ m', persistence.Delete sample.repo "a" sample.doubled
          = Done nil_error m' ∧
        persistence.GetByID sample.repo "a" m' = Done (addr 3, nil_error) m'.
Proof.
  destruct (Delete_then_GetByID sample.doubled sample.repo
              [addr 1; addr 2; addr 3] "a" 0 (addr 1))
    as (m' & Hdel & _ & Hnext); [reflexivity|sample_valid| |].
  - split; [done|]. split; [by exists sample.john|]. intros j q Hj. lia.
  - exists m'. split; [done|].
    apply (Hnext 2 (addr 3)); [lia|done|by exists sample.twin|].
    intros k q' Hk1 Hk2 Hq' (v & Hv & Hid).
    assert (k = 1) as -> by lia. injection Hq' as <-.
    vm_compute in Hv. injection Hv as <-. discriminate Hid.
Defined.

(** Create, then delete: appending a record whose id no record of the
    collection has and deleting that id again gives back the memory as it
    was before the create. *)
Theorem Create_then_Delete
    (m : Mem) (r : persistence.MemoryUserRepository) (us : list ptr)
    (user : ptr) (y : User) :
  arrs m !! persistence.users r = Some us →
  Forall (valid m) us →
  deref m user = Some y →
  (∀ q, q ∈ us → ¬ has_id m (ID y) q) →
  ∃ m1, persistence.Create r user m = Done (user, nil_error) m1 ∧
        persistence.Delete r (ID y) m1 = Done nil_error m.
Proof.
  intros Hus Hvalid Hy Habs.
  eexists. split; [by apply Create_done|].
  set (m1 := with_slice m _ _).
  rewrite (Delete_found m1 r (us ++ [user]) (with_slice_lookup _ _ _))
    with (i := length us) (p := user).
  - f_equal. subst m1. rewrite with_slice_twice.
    rewrite take_app_length, drop_ge by (rewrite length_app; simpl; lia).
    rewrite app_nil_r. unfold with_slice.
    rewrite (insert_id (arrs m) _ _ Hus). by destruct m.
  - apply Forall_app. split; [done|]. repeat constructor. by exists y.
  - split; [|split].
    + rewrite lookup_app_r by lia. by rewrite Nat.sub_diag.
    + by exists y.
    + intros j q Hj Hq Hid. rewrite lookup_app_l in Hq by done.
      apply (Habs q); [by eapply list_elem_of_lookup_2|done].
Qed.

Lemma Create_then_Delete_witness :
  ∃ m1, persistence.Create sample.repo (addr 4)
          (with_slice sample.staged 1 [addr 1; addr 3])
          = Done (addr 4, nil_error) m1 ∧
        persistence.Delete sample.repo "b" m1
          = Done nil_error (with_slice sample.staged 1 [addr 1; addr 3]).
Proof.
  apply (Create_then_Delete (with_slice sample.staged 1 [addr 1; addr 3])
           sample.repo [addr 1; addr 3] (addr 4) sample.jane');
    [reflexivity|sample_valid|reflexivity|sample_absent].
Defined.

(** ** The constructor *)

(** One step of the constructor: a new user is appended to the slice. *)
Lemma append_new_user m s us u :
  arrs m !! s = Some us →
  ∃ l, objs m !! l = None ∧
       (a ← new u; vs ← slice_get s; slice_put s (vs ++ [a])) m
       = Done () (mkMem (<[l := u]> (objs m)) (<[s := us ++ [addr l]]> (arrs m))).
Proof.
  intros Hus. destruct (new_done u m) as (l & Hl & Hnew). exists l.
  split; [done|]. rewrite (bind_done _ _ _ _ _ Hnew). set (m1 := mkMem _ _).
  assert (arrs m1 !! s = Some us) as Hus1 by done.
  rewrite (bind_done _ _ _ _ _ (slice_get_done _ _ _ Hus1)).
  by rewrite (slice_put_done _ _ _ _ Hus1).
Qed.

(** In whatever memory it runs, [NewMemoryUserRepository] returns a
    repository on a slice that was not in use, holding pointers to three
    new, distinct objects: the three sample users in their order, under
    the generated ids.  Every object and slice that existed is still there
    unchanged, and the store is well-formed. *)
Theorem NewMemoryUserRepository_builds (m : Mem) (u1 u2 u3 : string) :
  ∃ r m' a b c,
    persistence.NewMemoryUserRepository u1 u2 u3 m = Done r m' ∧
    arrs m !! persistence.users r = None ∧
    arrs m' !! persistence.users r = Some [addr a; addr b; addr c] ∧
    objs m' !! a = Some (mkUser u1 "John Doe" "john@example.com") ∧
    objs m' !! b = Some (mkUser u2 "Jane Smith" "jane@example.com") ∧
    objs m' !! c = Some (mkUser u3 "Bob Johnson" "bob@example.com") ∧
    NoDup [a; b; c] ∧
    objs m !! a = None ∧ objs m !! b = None ∧ objs m !! c = None ∧
    (∀ l u, objs m !! l = Some u → objs m' !! l = Some u) ∧
    (∀ s vs, arrs m !! s = Some vs → arrs m' !! s = Some vs) ∧
    store_ok m' r.
Proof.
  destruct (make_done m 0) as (s & Hmake & Hs). simpl in Hmake.
  set (m0 := mkMem (objs m) (<[s := []]> (arrs m))) in Hmake.
  assert (arrs m0 !! s = Some []) as H0 by apply lookup_insert_eq.
  destruct (append_new_user m0 s [] (mkUser u1 "John Doe" "john@example.com")
              H0) as (a & Ha & Hstep1).
  set (m1 := mkMem _ _) in Hstep1.
  assert (arrs m1 !! s = Some [addr a]) as H1 by apply lookup_insert_eq.
  destruct (append_new_user m1 s _
              (mkUser u2 "Jane Smith" "jane@example.com") H1)
    as (b & Hb & Hstep2).
  set (m2 := mkMem _ _) in Hstep2.
  assert (arrs m2 !! s = Some [addr a; addr b]) as H2
    by apply lookup_insert_eq.
  destruct (append_new_user m2 s _
              (mkUser u3 "Bob Johnson" "bob@example.com") H2)
    as (c & Hc & Hstep3).
  set (m3 := mkMem _ _) in Hstep3.
  simpl in Ha, Hb, Hc.
  assert (a ≠ b) as Hab by (intros ->; by rewrite lookup_insert_eq in Hb).
  assert (c ≠ b) as Hcb by (intros ->; by rewrite lookup_insert_eq in Hc).
  assert (c ≠ a) as Hca.
  { intros ->. rewrite lookup_insert_ne in Hc by done.
    by rewrite lookup_insert_eq in Hc. }
  rewrite lookup_insert_ne in Hb by done.
  rewrite !lookup_insert_ne in Hc by done.
  assert (objs m3 !! a = Some (mkUser u1 "John Doe" "john@example.com"))
    as Ha3.
  { subst m3 m2 m1. simpl. rewrite !lookup_insert_ne by done.
    apply lookup_insert_eq. }
  assert (objs m3 !! b = Some (mkUser u2 "Jane Smith" "jane@example.com"))
    as Hb3.
  { subst m3 m2. simpl. rewrite lookup_insert_ne by done.
    apply lookup_insert_eq. }
  assert (objs m3 !! c = Some (mkUser u3 "Bob Johnson" "bob@example.com"))
    as Hc3 by apply lookup_insert_eq.
  assert (arrs m3 !! s = Some [addr a; addr b; addr c]) as Hs3
    by apply lookup_insert_eq.
  exists (persistence.mkRepo s), m3, a, b, c.
  split; [|split; [done|split; [done|split; [done|split; [done|
          split; [done|split; [|split; [done|split; [done|split; [done|
          split; [|split]]]]]]]]]]].
  - unfold persistence.NewMemoryUserRepository.
    rewrite (bind_done _ _ _ _ _ Hmake). unfold entities.NewUser. simpl.
    go_unfold. go_unfold.
    revert Hstep1 Hstep2 Hstep3. go_unfold.
    destruct (new _ m0) as [p1 n1|]; [|done].
    destruct (slice_get s n1) as [v1 n1'|]; [|done].
    intros ->.
    destruct (new _ m1) as [p2 n2|]; [|done].
    destruct (slice_get s n2) as [v2 n2'|]; [|done].
    intros ->.
    destruct (new _ m2) as [p3 n3|]; [|done].
    destruct (slice_get s n3) as [v3 n3'|]; [|done].
    by intros ->.
  - apply NoDup_cons_2; [|apply NoDup_cons_2; [|apply NoDup_singleton]].
    + intros [E|[E|E%elem_of_nil]%elem_of_cons]%elem_of_cons; congruence.
    + intros [E|E%elem_of_nil]%elem_of_cons; congruence.
  - intros l u Hl. subst m3 m2 m1 m0. simpl.
    rewrite !lookup_insert_ne; [done|congruence..].
  - intros t vs Ht. subst m3 m2 m1 m0. simpl.
    rewrite !insert_insert_eq. rewrite lookup_insert_ne; [done|congruence].
  - exists [addr a; addr b; addr c]. split; [done|].
    repeat constructor; by eexists.
Qed.

(** * Further properties of the entity and the service *)

(** The two mutators commute, panics included: run in either order on
    any pointer in any memory they have the same outcome.  When they
    return, the pointer was not nil, the object it points to has the new
    name and email and the id it had, and nothing else has changed. *)
Theorem mutators_commute (p : ptr) (name email : string) (m : Mem) :
  (entities.UpdateName p name;; entities.UpdateEmail p email) m
  = (entities.UpdateEmail p email;; entities.UpdateName p name) m ∧
  (∀ m', (entities.UpdateName p name;; entities.UpdateEmail p email) m
         = Done () m' →
     ∃ l u, p = addr l ∧ objs m !! l = Some u ∧
            m' = mkMem (<[l := mkUser (ID u) name email]> (objs m)) (arrs m)).
Proof.
  unfold entities.UpdateName, entities.UpdateEmail. go_unfold. unfold modify.
  destruct p as [|l]; [done|].
  destruct (objs m !! l) as [u|] eqn:Hu; [|done]. simpl.
  rewrite !lookup_insert_eq, !insert_insert_eq. simpl. split; [done|].
  intros m' [= <-]. by exists l, u.
Qed.

(** The store hands out its own objects: a mutator applied to the pointer
    that get returned changes the record that the store holds, without any
    call to update.  A later get with the same id returns the same
    pointer, now with the new name; the slices are untouched. *)
Theorem stored_record_is_shared
    (m : Mem) (r : persistence.MemoryUserRepository) (us : list ptr)
    (id name : string) (i : nat) (p : ptr) :
  arrs m !! persistence.users r = Some us →
  Forall (valid m) us →
  first_match m id us i p →
  persistence.GetByID r id m = Done (p, nil_error) m ∧
  ∃ m' u, entities.UpdateName p name m = Done () m' ∧
          arrs m' = arrs m ∧
          persistence.GetByID r id m' = Done (p, nil_error) m' ∧
          deref m' p = Some u ∧ ID u = id ∧ Name u = name.
Proof.
  intros Hus Hvalid Hfm. split; [by eapply GetByID_found|].
  pose proof Hfm as (_ & (u & Hu & Hid) & _).
  destruct p as [|l]; [done|]. simpl in Hu.
  set (u' := mkUser (ID u) name (Email u)).
  exists (mkMem (<[l := u']> (objs m)) (arrs m)), u'.
  split; [unfold entities.UpdateName, modify; by rewrite Hu|].
  split; [done|]. split; [|split; [apply lookup_insert_eq|done]].
  apply (GetByID_found (mkMem (<[l := u']> (objs m)) (arrs m)) r us Hus)
    with (i := i).
  - eapply Forall_impl; [exact Hvalid|]. intros q Hq.
    by apply (valid_overwrite m l u).
  - by apply (first_match_overwrite m l u).
Qed.

Lemma stored_record_is_shared_witness :
  ∃ m' u, entities.UpdateName (addr 2) "Janet" sample.seeded = Done () m' ∧
          arrs m' = arrs sample.seeded ∧
          persistence.GetByID sample.repo "b" m' = Done (addr 2, nil_error) m' ∧
          deref m' (addr 2) = Some u ∧ ID u = "b" ∧ Name u = "Janet".
Proof.
  apply (stored_record_is_shared sample.seeded sample.repo
           [addr 1; addr 2; addr 3] "b" "Janet" 1 (addr 2));
    [reflexivity|sample_valid|].
  split; [done|]. split; [by exists sample.jane|].
  intros [|[|j]] q Hj Hq (v & Hv & Hid); [|lia..].
  injection Hq as <-. vm_compute in Hv. injection Hv as <-. discriminate Hid.
Defined.

Lemma UpdateUser_absent m r us id name email :
  arrs m !! persistence.users r = Some us →
  Forall (valid m) us →
  (∀ q, q ∈ us → ¬ has_id m id q) →
  id ≠ "" → name ≠ "" → email ≠ "" →
  services.UpdateUser (services.mkService r) id name email m
  = Done (null, NotFound) m.
Proof.
  intros Hus Hvalid Habs Hid Hn He.
  unfold services.UpdateUser. rewrite decide_False by done.
  rewrite !bool_decide_eq_false_2 by done. simpl.
  by rewrite (bind_done _ _ _ _ _ (GetByID_absent m r us Hus Hvalid id Habs)).
Qed.

Lemma UpdateUser_rejects (r : persistence.MemoryUserRepository)
    id name email m :
  id = "" ∨ name = "" ∨ email = "" →
  ∃ e, ValidationError e ∧
       services.UpdateUser (services.mkService r) id name email m
       = Done (null, e) m.
Proof.
  intros H. unfold services.UpdateUser.
  destruct (decide (id = "")) as [->|Hid].
  - eexists. split; [by left|done].
  - eexists. split; [by right|].
    assert (bool_decide (name = "") || bool_decide (email = "") = true)
      as ->; [|done].
    destruct H as [?|[->| ->]]; [done|done|apply orb_true_r].
Qed.

(** [UpdateUser] with a non-empty id, name and email on a well-formed
    store.  When a record has the id, the call returns the pointer the
    store holds first under that id; the object it points to now has the
    given name and email and the same id, every other object and every
    slice is as before, and get with the id returns that pointer.  When no
    record has the id, the call returns "user not found" and changes
    nothing. *)
Theorem UpdateUser_outcomes
    (m : Mem) (r : persistence.MemoryUserRepository) (us : list ptr)
    (id name email : string) :
  arrs m !! persistence.users r = Some us →
  Forall (valid m) us →
  id ≠ "" → name ≠ "" → email ≠ "" →
  ((∃ q, q ∈ us ∧ has_id m id q) →
   ∃ i l m',
     first_match m id us i (addr l) ∧
     services.UpdateUser (services.mkService r) id name email m
       = Done (addr l, nil_error) m' ∧
     objs m' !! l = Some (mkUser id name email) ∧
     (∀ l', l' ≠ l → objs m' !! l' = objs m !! l') ∧
     arrs m' = arrs m ∧
     persistence.GetByID r id m' = Done (addr l, nil_error) m') ∧
  ((∀ q, q ∈ us → ¬ has_id m id q) →
   services.UpdateUser (services.mkService r) id name email m
     = Done (null, NotFound) m).
Proof.
  intros Hus Hvalid Hid Hn He. split; [|intros; by eapply UpdateUser_absent].
  intros Hex.
  destruct (first_match_exists _ _ _ Hvalid Hex) as (i & p & Hfm).
  pose proof Hfm as (_ & (u & Hu & HID) & _).
  destruct p as [|l]; [done|]. simpl in Hu.
  exists i, l, (mkMem (<[l := mkUser id name email]> (objs m)) (arrs m)).
  split; [done|]. split; [by eapply UpdateUser_found|].
  split; [apply lookup_insert_eq|]. split.
  { intros l' Hl'. simpl. by rewrite lookup_insert_ne. }
  split; [done|].
  apply (GetByID_found
           (mkMem (<[l := mkUser id name email]> (objs m)) (arrs m))
           r us Hus) with (i := i).
  - eapply Forall_impl; [exact Hvalid|]. intros q Hq.
    by apply (valid_overwrite m l u).
  - by apply (first_match_overwrite m l u).
Qed.

Lemma UpdateUser_outcomes_witness :
  (∃ i l m',
     first_match sample.seeded "b" [addr 1; addr 2; addr 3] i (addr l) ∧
     services.UpdateUser (services.mkService sample.repo) "b" "Jane Updated"
       "jane.updated@example.com" sample.seeded = Done (addr l, nil_error) m' ∧
     objs m' !! l = Some sample.jane' ∧
     (∀ l', l' ≠ l → objs m' !! l' = objs sample.seeded !! l') ∧
     arrs m' = arrs sample.seeded ∧
     persistence.GetByID sample.repo "b" m' = Done (addr l, nil_error) m') ∧
  services.UpdateUser (services.mkService sample.repo) "nonexistent-id"
    "Jane Updated" "jane.updated@example.com" sample.seeded
  = Done (null, NotFound) sample.seeded.
Proof.
  split.
  - apply (UpdateUser_outcomes sample.seeded sample.repo
             [addr 1; addr 2; addr 3] "b" "Jane Updated"
             "jane.updated@example.com");
      [reflexivity|sample_valid|done|done|done|].
    exists (addr 2). split; [set_solver|]. by exists sample.jane.
  - apply (UpdateUser_outcomes sample.seeded sample.repo
             [addr 1; addr 2; addr 3] "nonexistent-id" "Jane Updated"
             "jane.updated@example.com");
      [reflexivity|sample_valid|done|done|done|sample_absent].
Defined.



Lemma store_ok_after_new m r l u :
  objs m !! l = None → store_ok m r →
  store_ok (mkMem (<[l := u]> (objs m)) (arrs m)) r.
Proof.
  intros Hl (us & Hus & Hvalid). exists us. split; [done|].
  eapply Forall_impl; [exact Hvalid|]. intros q Hq. unfold valid.
  by rewrite (deref_after_new m l u q Hl Hq).
Qed.

Lemma CreateUser_rejects {R : Type} `{!repositories.UserRepository R}
    (s : services.UserService R) uuid name email m :
  name = "" ∨ email = "" →
  ∃ l, objs m !! l = None ∧
       services.CreateUser s uuid name email m
       = Done (null,
               errors_New "invalid user data: name and email are required")
           (mkMem (<[l := mkUser uuid name email]> (objs m)) (arrs m)).
Proof.
  intros Hempty.
  destruct (new_done (mkUser uuid name email) m) as (l & Hl & Hnew).
  exists l. split; [done|].
  unfold services.CreateUser, entities.NewUser.
  rewrite (bind_done _ _ _ _ _ Hnew). set (m1 := mkMem _ _).
  assert (deref m1 (addr l) = Some (mkUser uuid name email)) as Hu
    by apply lookup_insert_eq.
  rewrite (bind_done _ _ _ _ _ (IsValid_done _ _ _ Hu)). simpl.
  destruct Hempty as [->| ->]; [done|]. by rewrite andb_false_r.
Qed.

(** The service never panics on a well-formed store and keeps it
    well-formed, whatever the arguments, the empty string included.
    [CreateUser] returns a nil error exactly when the name and the email
    are both non-empty. *)
Theorem service_keeps_store_ok
    (m : Mem) (r : persistence.MemoryUserRepository) :
  store_ok m r →
  let s := services.mkService r in
  (∀ id, ∃ res, services.GetUserByID s id m = Done res m) ∧
  (∃ res m', services.GetAllUsers s m = Done res m' ∧ store_ok m' r) ∧
  (∀ uuid name email, ∃ res m',
     services.CreateUser s uuid name email m = Done res m' ∧
     store_ok m' r ∧
     (res.2 = nil_error ↔ name ≠ "" ∧ email ≠ "")) ∧
  (∀ id name email, ∃ res m',
     services.UpdateUser s id name email m = Done res m' ∧ store_ok m' r) ∧
  (∀ id, ∃ e m', services.DeleteUser s id m = Done e m' ∧ store_ok m' r).
Proof.
  intros Hok. pose proof Hok as (us & Hus & Hvalid). simpl.
  split; [|split; [|split; [|split]]].
  - intros id. unfold services.GetUserByID.
    destruct (decide (id = "")); [by eexists|]. simpl.
    destruct (present_or_absent m id us Hvalid) as [Hex|Habs].
    + destruct (first_match_exists _ _ _ Hvalid Hex) as (i & p & Hfm).
      eexists. by eapply GetByID_found.
    + eexists. by eapply GetByID_absent.
  - destruct (GetAll_done m r us Hus) as (a & Hfresh & Hget).
    eexists _, _. split; [exact Hget|]. exists us.
    split; [|done]. rewrite with_slice_lookup_ne; [done|congruence].
  - intros uuid name email.
    destruct (decide (name = "")) as [Hn|Hn];
      [|destruct (decide (email = "")) as [He|He]].
    1-2: destruct (CreateUser_rejects (services.mkService r) uuid name email m)
        as (l & Hl & Hrej); [tauto|];
      eexists _, _; (split; [exact Hrej|]);
      (split; [by apply store_ok_after_new|]); simpl; split; [done|tauto].
    destruct (CreateUser_valid r uuid name email m us Hus Hn He)
      as (l & Hl & Hrun).
    eexists _, _. split; [exact Hrun|]. split; [|done].
    apply store_ok_with_slice. apply Forall_app. split.
    + eapply Forall_impl; [exact Hvalid|]. intros q Hq. unfold valid.
      by rewrite (deref_after_new m l _ q Hl Hq).
    + repeat constructor. eexists. apply lookup_insert_eq.
  - intros id name email.
    destruct (decide (id = "")) as [Hid|Hid];
      [|destruct (decide (name = "")) as [Hn|Hn];
        [|destruct (decide (email = "")) as [He|He]]].
    1-3: destruct (UpdateUser_rejects r id name email m) as (e & _ & Hrej);
      [tauto|]; by eexists _, _.
    destruct (present_or_absent m id us Hvalid) as [Hex|Habs].
    + destruct (first_match_exists _ _ _ Hvalid Hex) as (i & q & Hfm).
      pose proof Hfm as (_ & (u & Hu & _) & _). destruct q as [|l]; [done|].
      eexists _, _. split; [by eapply UpdateUser_found|].
      exists us. split; [done|].
      eapply Forall_impl; [exact Hvalid|]. intros q Hq.
      by apply (valid_overwrite m l u).
    + eexists _, _. split; [by eapply UpdateUser_absent|done].
  - intros id. unfold services.DeleteUser.
    destruct (decide (id = "")); [by eexists _, _|]. simpl.
    destruct (present_or_absent m id us Hvalid) as [Hex|Habs].
    + destruct (first_match_exists _ _ _ Hvalid Hex) as (i & p & Hfm).
      pose proof Hfm as (_ & (u & Hu & _) & _). destruct p as [|l]; [done|].
      rewrite (bind_done _ _ _ _ _ (GetByID_found m r us Hus Hvalid id i _ Hfm)).
      simpl. eexists _, _. split; [by eapply Delete_found|].
      by apply store_ok_with_slice, Forall_remove.
    + rewrite (bind_done _ _ _ _ _ (GetByID_absent m r us Hus Hvalid id Habs)).
      by eexists _, _.
Qed.

Lemma service_keeps_store_ok_witness :
  ∃ res m',
    services.CreateUser (services.mkService sample.repo) "d" "Dora" ""
      sample.seeded = Done res m' ∧
    store_ok m' sample.repo ∧
    (res.2 = nil_error ↔ "Dora" ≠ "" ∧ "" ≠ "").
Proof.
  destruct (service_keeps_store_ok sample.seeded sample.repo)
    as (_ & _ & Hcreate & _).
  - exists [addr 1; addr 2; addr 3]. split; [done|sample_valid].
  - apply Hcreate.
Defined.

(** * The HTTP handlers *)

(** ** Requests turned down before the service is called *)

(** For every implementation of the service interface: a request whose
    path has no id, or the empty one, gets 400 "Invalid user ID" from the
    get, update and delete handlers, and a request whose body does not
    decode gets 400 "Invalid JSON" from the create handler and, with an id,
    from the update handler.  The memory is left as it was: the service
    has not been called. *)
Theorem handlers_turn_down_early
    {S : Type} `{!service_interface.UserServiceInterface S}
    (h : handlers.UserHandler S) (w : http.ResponseWriter)
    (req : http.Request) (uuid : string) (m : Mem) :
  (http.var req "id" = "" →
   let reply := http.Error w "Invalid user ID" http.StatusBadRequest in
   handlers.GetUser h w req m = Done reply m ∧
   handlers.UpdateUser h w req m = Done reply m ∧
   handlers.DeleteUser h w req m = Done reply m) ∧
  (http.Body req = None →
   let reply := http.Error w "Invalid JSON" http.StatusBadRequest in
   handlers.CreateUser h uuid w req m = Done reply m ∧
   (http.var req "id" ≠ "" → handlers.UpdateUser h w req m = Done reply m)).
Proof.
  split.
  - intros Hid. simpl.
    unfold handlers.GetUser, handlers.UpdateUser, handlers.DeleteUser.
    by rewrite Hid.
  - intros Hbody. simpl. unfold handlers.CreateUser, handlers.UpdateUser.
    rewrite Hbody. split; [done|]. intros Hid. by rewrite decide_False.
Qed.

(** The handlers in front of the repository whose methods all panic. *)
Lemma handlers_turn_down_early_witness :
  let h := handlers.mkHandler (services.mkService ()) in
  handlers.DeleteUser h http.NewRecorder (http.mkRequest ∅ None) sample.seeded
    = Done (http.Error http.NewRecorder "Invalid user ID" 400) sample.seeded ∧
  handlers.UpdateUser h http.NewRecorder
    (http.mkRequest {["id" := "b"]} None) sample.seeded
    = Done (http.Error http.NewRecorder "Invalid JSON" 400) sample.seeded.
Proof.
  simpl. split.
  - apply (handlers_turn_down_early
             (handlers.mkHandler (services.mkService ())) http.NewRecorder
             (http.mkRequest ∅ None) "" sample.seeded). reflexivity.
  - apply (handlers_turn_down_early
             (handlers.mkHandler (services.mkService ())) http.NewRecorder
             (http.mkRequest {["id" := "b"]} None) "" sample.seeded);
      [reflexivity|done].
Defined.

(** ** The handlers on the service over the in-memory repository *)

(** A reply with a JSON body; the recorder [w] had no header written. *)
Lemma json_reply w c v :
  http.code w = None →
  http.Write (http.encoded v)
    (http.WriteHeader c (http.Header_Set "Content-Type" "application/json" w))
  = http.mkResponse (Some c)
      (<["Content-Type" := "application/json"]> (http.header w))
      (http.body w ++ [http.encoded v]).
Proof.
  intros Hw. unfold http.Write, http.WriteHeader, http.Header_Set. simpl.
  by rewrite Hw.
Qed.

Lemma error_reply_code w msg c :
  http.code w = None → http.code (http.Error w msg c) = Some c.
Proof.
  intros Hw. unfold http.Error, http.Write, http.WriteHeader, http.Header_Set,
    http.Header_Del. simpl. by rewrite Hw.
Qed.

Section stack.
Variables (m : Mem) (r : persistence.MemoryUserRepository) (us : list ptr).
Hypothesis Hus : arrs m !! persistence.users r = Some us.
Hypothesis Hvalid : Forall (valid m) us.
Variables (w : http.ResponseWriter) (req : http.Request).
Let h := handlers.mkHandler (services.mkService r).

Lemma GetUser_found id i p u :
  http.var req "id" = id → id ≠ "" →
  first_match m id us i p → deref m p = Some u →
  handlers.GetUser h w req m
  = Done (http.Write (http.encoded (http.json_user u))
            (http.Header_Set "Content-Type" "application/json" w)) m.
Proof.
  intros Hvar Hid Hfm Hu. unfold handlers.GetUser. rewrite Hvar.
  rewrite decide_False by done. simpl. unfold services.GetUserByID.
  rewrite decide_False by done. simpl.
  rewrite (bind_done _ _ _ _ _ (GetByID_found m r us Hus Hvalid id i p Hfm)).
  simpl. destruct p as [|l]; [done|]. unfold http.Encode_user.
  by rewrite (bind_done _ _ _ _ _ (load_done _ _ _ Hu)).
Qed.

Lemma GetUser_absent id :
  http.var req "id" = id → id ≠ "" →
  (∀ q, q ∈ us → ¬ has_id m id q) →
  handlers.GetUser h w req m
  = Done (http.Error w "User not found" http.StatusNotFound) m.
Proof.
  intros Hvar Hid Habs. unfold handlers.GetUser. rewrite Hvar.
  rewrite decide_False by done. simpl. unfold services.GetUserByID.
  rewrite decide_False by done. simpl.
  by rewrite (bind_done _ _ _ _ _ (GetByID_absent m r us Hus Hvalid id Habs)).
Qed.

Lemma CreateUser_handler_invalid uuid name email :
  http.Body req = Some (name, email) → name = "" ∨ email = "" →
  ∃ l, objs m !! l = None ∧
       handlers.CreateUser h uuid w req m
       = Done (http.Error w "invalid user data: name and email are required"
                 http.StatusBadRequest)
           (mkMem (<[l := mkUser uuid name email]> (objs m)) (arrs m)).
Proof.
  intros Hbody Hempty.
  destruct (CreateUser_rejects (services.mkService r) uuid name email m
              Hempty) as (l & Hl & Hrej).
  exists l. split; [done|]. unfold handlers.CreateUser. rewrite Hbody. simpl.
  by rewrite (bind_done _ _ _ _ _ Hrej).
Qed.

Lemma CreateUser_handler_valid uuid name email :
  http.Body req = Some (name, email) → name ≠ "" → email ≠ "" →
  ∃ l, objs m !! l = None ∧
       handlers.CreateUser h uuid w req m
       = Done (http.Write (http.encoded (http.json_user
                                           (mkUser uuid name email)))
                 (http.WriteHeader http.StatusCreated
                    (http.Header_Set "Content-Type" "application/json" w)))
           (with_slice (mkMem (<[l := mkUser uuid name email]> (objs m))
                              (arrs m))
                       (persistence.users r) (us ++ [addr l])).
Proof.
  intros Hbody Hn He.
  destruct (CreateUser_valid r uuid name email m us Hus Hn He)
    as (l & Hl & Hrun).
  exists l. split; [done|]. unfold handlers.CreateUser. rewrite Hbody. simpl.
  rewrite (bind_done _ _ _ _ _ Hrun). simpl. unfold http.Encode_user.
  erewrite bind_done; [done|]. apply load_done. apply lookup_insert_eq.
Qed.

Lemma UpdateUser_handler_invalid id name email :
  http.var req "id" = id → id ≠ "" →
  http.Body req = Some (name, email) → name = "" ∨ email = "" →
  handlers.UpdateUser h w req m
  = Done (http.Error w "invalid user data: name and email are required"
            http.StatusBadRequest) m.
Proof.
  intros Hvar Hid Hbody Hempty. unfold handlers.UpdateUser.
  rewrite Hvar, Hbody. rewrite decide_False by done. simpl.
  unfold services.UpdateUser. rewrite decide_False by done.
  assert (bool_decide (name = "") || bool_decide (email = "") = true) as ->;
    [|done].
  destruct Hempty as [->| ->]; [done|apply orb_true_r].
Qed.

Lemma UpdateUser_handler_found id name email i l :
  http.var req "id" = id → id ≠ "" →
  http.Body req = Some (name, email) → name ≠ "" → email ≠ "" →
  first_match m id us i (addr l) →
  handlers.UpdateUser h w req m
  = Done (http.Write (http.encoded (http.json_user (mkUser id name email)))
            (http.Header_Set "Content-Type" "application/json" w))
      (mkMem (<[l := mkUser id name email]> (objs m)) (arrs m)).
Proof.
  intros Hvar Hid Hbody Hn He Hfm. unfold handlers.UpdateUser.
  rewrite Hvar, Hbody. rewrite decide_False by done. simpl.
  rewrite (bind_done _ _ _ _ _
             (UpdateUser_found m r us id i l name email Hus Hvalid Hfm
                Hid Hn He)).
  simpl. unfold http.Encode_user.
  erewrite bind_done; [done|]. apply load_done. apply lookup_insert_eq.
Qed.

Lemma UpdateUser_handler_absent id name email :
  http.var req "id" = id → id ≠ "" →
  http.Body req = Some (name, email) → name ≠ "" → email ≠ "" →
  (∀ q, q ∈ us → ¬ has_id m id q) →
  handlers.UpdateUser h w req m
  = Done (http.Error w "User not found" http.StatusNotFound) m.
Proof.
  intros Hvar Hid Hbody Hn He Habs. unfold handlers.UpdateUser.
  rewrite Hvar, Hbody. rewrite decide_False by done. simpl.
  by rewrite (bind_done _ _ _ _ _
                (UpdateUser_absent m r us id name email Hus Hvalid Habs
                   Hid Hn He)).
Qed.

Lemma DeleteUser_handler_found id i p :
  http.var req "id" = id → id ≠ "" →
  first_match m id us i p →
  handlers.DeleteUser h w req m
  = Done (http.WriteHeader http.StatusNoContent w)
      (with_slice m (persistence.users r) (take i us ++ drop (S i) us)).
Proof.
  intros Hvar Hid Hfm. unfold handlers.DeleteUser.
  rewrite Hvar. rewrite decide_False by done. simpl.
  unfold services.DeleteUser. rewrite decide_False by done. simpl.
  pose proof Hfm as (_ & (u & Hu & _) & _). destruct p as [|l]; [done|].
  rewrite (bind_done _ _ m nil_error
             (with_slice m (persistence.users r)
                (take i us ++ drop (S i) us))); [done|].
  rewrite (bind_done _ _ _ _ _ (GetByID_found m r us Hus Hvalid id i _ Hfm)).
  simpl. by eapply Delete_found.
Qed.

Lemma DeleteUser_handler_absent id :
  http.var req "id" = id → id ≠ "" →
  (∀ q, q ∈ us → ¬ has_id m id q) →
  handlers.DeleteUser h w req m
  = Done (http.Error w "User not found" http.StatusNotFound) m.
Proof.
  intros Hvar Hid Habs. unfold handlers.DeleteUser.
  rewrite Hvar. rewrite decide_False by done. simpl.
  unfold services.DeleteUser. rewrite decide_False by done. simpl.
  rewrite (bind_done _ _ m NotFound m); [done|].
  by rewrite (bind_done _ _ _ _ _ (GetByID_absent m r us Hus Hvalid id Habs)).
Qed.

End stack.

Lemma encode_each_done m us :
  Forall (valid m) us → http.encode_each us m = Done (deref m <$> us) m.
Proof.
  induction 1 as [|p us [u Hu] _ IH]; [done|]. simpl.
  destruct p as [|l]; [done|].
  rewrite (bind_done _ _ _ _ _ (load_done _ _ _ Hu)).
  rewrite (bind_done _ _ _ _ _ IH). by rewrite Hu.
Qed.

Lemma GetUsers_handler_done m r us w req :
  arrs m !! persistence.users r = Some us → Forall (valid m) us →
  ∃ a, arrs m !! a = None ∧
       handlers.GetUsers (handlers.mkHandler (services.mkService r)) w req m
       = Done (http.Write (http.encoded (http.json_array (deref m <$> us)))
                 (http.Header_Set "Content-Type" "application/json" w))
           (with_slice m a us).
Proof.
  intros Hus Hvalid. destruct (GetAll_done m r us Hus) as (a & Ha & Hget).
  exists a. split; [done|]. unfold handlers.GetUsers. simpl.
  unfold services.GetAllUsers. simpl.
  rewrite (bind_done _ _ _ _ _ Hget). simpl. unfold http.Encode_users.
  rewrite (bind_done _ _ _ _ _
             (slice_get_done _ _ _ (with_slice_lookup m a us))).
  assert (Forall (valid (with_slice m a us)) us) as Hvalid' by done.
  by rewrite (bind_done _ _ _ _ _ (encode_each_done _ _ Hvalid')).
Qed.

(** GET /users on a well-formed store replies 200 with content type
    application/json and one array holding every record of the collection
    in its order, the empty array (not null) for an empty collection.
    The collection and the user objects are as before; the only change in
    memory is the slice that the store's list call has made. *)
Theorem GetUsers_replies
    (m : Mem) (r : persistence.MemoryUserRepository) (us : list ptr)
    (w : http.ResponseWriter) (req : http.Request) :
  arrs m !! persistence.users r = Some us →
  Forall (valid m) us →
  http.code w = None →
  ∃ recs a,
    Forall2 (λ p u, deref m p = Some u) us recs ∧
    arrs m !! a = None ∧
    handlers.GetUsers (handlers.mkHandler (services.mkService r)) w req m
    = Done (http.mkResponse (Some 200)
              (<["Content-Type" := "application/json"]> (http.header w))
              (http.body w ++ [http.encoded (http.json_array (Some <$> recs))]))
        (with_slice m a us).
Proof.
  intros Hus Hvalid Hw.
  destruct (GetUsers_handler_done m r us w req Hus Hvalid) as (a & Ha & Hrun).
  assert (∃ recs, Forall2 (λ p u, deref m p = Some u) us recs ∧
                  deref m <$> us = Some <$> recs) as (recs & Hrecs & Heq).
  { clear -Hvalid. induction Hvalid as [|p us [u Hu] _ (recs & H2 & E)].
    - by exists [].
    - exists (u :: recs). split; [by constructor|].
      rewrite !fmap_cons. by rewrite Hu, E. }
  exists recs, a. split; [done|]. split; [done|]. rewrite Hrun, Heq.
  f_equal. unfold http.Write, http.WriteHeader, http.Header_Set. simpl.
  by rewrite Hw.
Qed.

Lemma GetUsers_replies_witness :
  ∃ recs a,
    Forall2 (λ p u, deref sample.seeded p = Some u)
      [addr 1; addr 2; addr 3] recs ∧
    arrs sample.seeded !! a = None ∧
    handlers.GetUsers (handlers.mkHandler (services.mkService sample.repo))
      http.NewRecorder (http.mkRequest ∅ None) sample.seeded
    = Done (http.mkResponse (Some 200)
              (<["Content-Type" := "application/json"]> ∅)
              [http.encoded (http.json_array (Some <$> recs))])
        (with_slice sample.seeded a [addr 1; addr 2; addr 3]).
Proof.
  apply (GetUsers_replies sample.seeded sample.repo [addr 1; addr 2; addr 3]
           http.NewRecorder (http.mkRequest ∅ None));
    [reflexivity|sample_valid|reflexivity].
Defined.

(** GET /users/{id} with a non-empty id on a well-formed store replies
    200 with the first record that has the id as JSON, and 404 "User not
    found" when no record has it.  The memory is left as it was. *)
Theorem GetUser_replies
    (m : Mem) (r : persistence.MemoryUserRepository) (us : list ptr)
    (w : http.ResponseWriter) (req : http.Request) (id : string) :
  arrs m !! persistence.users r = Some us →
  Forall (valid m) us →
  http.code w = None →
  http.var req "id" = id → id ≠ "" →
  let h := handlers.mkHandler (services.mkService r) in
  (∀ i p u, first_match m id us i p → deref m p = Some u →
     handlers.GetUser h w req m
     = Done (http.mkResponse (Some 200)
               (<["Content-Type" := "application/json"]> (http.header w))
               (http.body w ++ [http.encoded (http.json_user u)])) m) ∧
  ((∀ q, q ∈ us → ¬ has_id m id q) →
     handlers.GetUser h w req m
     = Done (http.Error w "User not found" 404) m).
Proof.
  intros Hus Hvalid Hw Hvar Hid. simpl. split.
  - intros i p u Hfm Hu.
    rewrite (GetUser_found m r us Hus Hvalid w req id i p u) by done.
    f_equal. unfold http.Write, http.WriteHeader, http.Header_Set. simpl.
    by rewrite Hw.
  - intros Habs. by apply (GetUser_absent m r us Hus Hvalid w req id).
Qed.

Lemma GetUser_replies_witness :
  let h := handlers.mkHandler (services.mkService sample.repo) in
  handlers.GetUser h http.NewRecorder (http.mkRequest {["id" := "b"]} None)
    sample.seeded
  = Done (http.mkResponse (Some 200)
            (<["Content-Type" := "application/json"]> ∅)
            [http.encoded (http.json_user sample.jane)]) sample.seeded ∧
  handlers.GetUser h http.NewRecorder
    (http.mkRequest {["id" := "nonexistent-id"]} None) sample.seeded
  = Done (http.Error http.NewRecorder "User not found" 404) sample.seeded.
Proof.
  simpl. split.
  - apply (GetUser_replies sample.seeded sample.repo [addr 1; addr 2; addr 3]
             http.NewRecorder (http.mkRequest {["id" := "b"]} None) "b")
      with (i := 1) (p := addr 2);
      [reflexivity|sample_valid|reflexivity|reflexivity|done| |reflexivity].
    split; [done|]. split; [by exists sample.jane|].
    intros [|[|j]] q Hj Hq (v & Hv & Hid); [|lia..].
    injection Hq as <-. vm_compute in Hv. injection Hv as <-. discriminate Hid.
  - apply (GetUser_replies sample.seeded sample.repo [addr 1; addr 2; addr 3]
             http.NewRecorder
             (http.mkRequest {["id" := "nonexistent-id"]} None)
             "nonexistent-id");
      [reflexivity|sample_valid|reflexivity|reflexivity|done|sample_absent].
Defined.

(** POST /users with a body that decodes.  With an empty name or an empty
    email (a field missing from the body included) the reply is 400 with
    the service's message, and the collection is as before.  Otherwise the
    reply is 201 with the new record as JSON, under the generated id, and
    the collection is the old one followed by a pointer to that record. *)
Theorem CreateUser_replies
    (m : Mem) (r : persistence.MemoryUserRepository) (us : list ptr)
    (w : http.ResponseWriter) (req : http.Request)
    (uuid name email : string) :
  arrs m !! persistence.users r = Some us →
  http.code w = None →
  http.Body req = Some (name, email) →
  let h := handlers.mkHandler (services.mkService r) in
  (name = "" ∨ email = "" →
   ∃ m', handlers.CreateUser h uuid w req m
         = Done (http.Error w
                   "invalid user data: name and email are required" 400) m' ∧
         arrs m' = arrs m) ∧
  (name ≠ "" → email ≠ "" →
   ∃ l m', handlers.CreateUser h uuid w req m
           = Done (http.mkResponse (Some 201)
                     (<["Content-Type" := "application/json"]> (http.header w))
                     (http.body w
                      ++ [http.encoded (http.json_user
                                          (mkUser uuid name email))])) m' ∧
           objs m !! l = None ∧
           objs m' !! l = Some (mkUser uuid name email) ∧
           arrs m' !! persistence.users r = Some (us ++ [addr l])).
Proof.
  intros Hus Hw Hbody. simpl. split.
  - intros Hempty.
    destruct (CreateUser_handler_invalid m r w req uuid name email Hbody Hempty)
      as (l & Hl & Hrun).
    eexists. by split; [exact Hrun|].
  - intros Hn He.
    destruct (CreateUser_handler_valid m r us Hus w req uuid name email
                Hbody Hn He) as (l & Hl & Hrun).
    eexists l, _. split; [rewrite Hrun; f_equal; by apply json_reply|].
    split; [done|]. split; [apply lookup_insert_eq|apply with_slice_lookup].
Qed.

Lemma CreateUser_replies_witness :
  let h := handlers.mkHandler (services.mkService sample.repo) in
  (∃ m', handlers.CreateUser h "d" http.NewRecorder
           (http.mkRequest ∅ (Some ("Dora", ""))) sample.seeded
         = Done (http.Error http.NewRecorder
                   "invalid user data: name and email are required" 400) m' ∧
         arrs m' = arrs sample.seeded) ∧
  (∃ l m', handlers.CreateUser h "d" http.NewRecorder
             (http.mkRequest ∅ (Some ("Dora", "dora@example.com")))
             sample.seeded
           = Done (http.mkResponse (Some 201)
                     (<["Content-Type" := "application/json"]> ∅)
                     [http.encoded (http.json_user
                        (mkUser "d" "Dora" "dora@example.com"))]) m' ∧
           objs sample.seeded !! l = None ∧
           objs m' !! l = Some (mkUser "d" "Dora" "dora@example.com") ∧
           arrs m' !! persistence.users sample.repo
           = Some ([addr 1; addr 2; addr 3] ++ [addr l])).
Proof.
  simpl. split.
  - apply (CreateUser_replies sample.seeded sample.repo
             [addr 1; addr 2; addr 3] http.NewRecorder
             (http.mkRequest ∅ (Some ("Dora", ""))) "d" "Dora" "");
      [reflexivity..|by right].
  - apply (CreateUser_replies sample.seeded sample.repo
             [addr 1; addr 2; addr 3] http.NewRecorder
             (http.mkRequest ∅ (Some ("Dora", "dora@example.com")))
             "d" "Dora" "dora@example.com"); [reflexivity..|done|done].
Defined.

(** PUT /users/{id} with a non-empty id and a body that decodes, on a
    well-formed store.  An empty name or email gives 400 with the
    service's message and changes nothing; an id no record has gives 404
    and changes nothing; otherwise the reply is 200 with the record as
    JSON, now with the given name and email under the same id, and that
    is the object the store holds first under the id. *)
Theorem UpdateUser_replies
    (m : Mem) (r : persistence.MemoryUserRepository) (us : list ptr)
    (w : http.ResponseWriter) (req : http.Request)
    (id name email : string) :
  arrs m !! persistence.users r = Some us →
  Forall (valid m) us →
  http.code w = None →
  http.var req "id" = id → id ≠ "" →
  http.Body req = Some (name, email) →
  let h := handlers.mkHandler (services.mkService r) in
  (name = "" ∨ email = "" →
   handlers.UpdateUser h w req m
   = Done (http.Error w
             "invalid user data: name and email are required" 400) m) ∧
  (name ≠ "" → email ≠ "" → (∀ q, q ∈ us → ¬ has_id m id q) →
   handlers.UpdateUser h w req m
   = Done (http.Error w "User not found" 404) m) ∧
  (name ≠ "" → email ≠ "" → ∀ i l, first_match m id us i (addr l) →
   handlers.UpdateUser h w req m
   = Done (http.mkResponse (Some 200)
             (<["Content-Type" := "application/json"]> (http.header w))
             (http.body w
              ++ [http.encoded (http.json_user (mkUser id name email))]))
       (mkMem (<[l := mkUser id name email]> (objs m)) (arrs m))).
Proof.
  intros Hus Hvalid Hw Hvar Hid Hbody. simpl. split; [|split].
  - intros Hempty.
    by apply (UpdateUser_handler_invalid m r w req id name email).
  - intros Hn He Habs.
    by apply (UpdateUser_handler_absent m r us Hus Hvalid w req id name email).
  - intros Hn He i l Hfm.
    rewrite (UpdateUser_handler_found m r us Hus Hvalid w req id name email
               i l) by done.
    f_equal. unfold http.Write, http.WriteHeader, http.Header_Set. simpl.
    by rewrite Hw.
Qed.

Lemma UpdateUser_replies_witness :
  handlers.UpdateUser (handlers.mkHandler (services.mkService sample.repo))
    http.NewRecorder
    (http.mkRequest {["id" := "b"]}
       (Some ("Jane Updated", "jane.updated@example.com"))) sample.seeded
  = Done (http.mkResponse (Some 200)
            (<["Content-Type" := "application/json"]> ∅)
            [http.encoded (http.json_user sample.jane')])
      (mkMem (<[2%positive := sample.jane']> (objs sample.seeded))
             (arrs sample.seeded)).
Proof.
  apply (UpdateUser_replies sample.seeded sample.repo [addr 1; addr 2; addr 3]
           http.NewRecorder
           (http.mkRequest {["id" := "b"]}
              (Some ("Jane Updated", "jane.updated@example.com")))
           "b" "Jane Updated" "jane.updated@example.com")
    with (i := 1);
    [reflexivity|sample_valid|reflexivity|reflexivity|done|reflexivity
    |done|done|].
  split; [done|]. split; [by exists sample.jane|].
  intros [|[|j]] q Hj Hq (v & Hv & Hid); [|lia..].
  injection Hq as <-. vm_compute in Hv. injection Hv as <-. discriminate Hid.
Defined.

(** DELETE /users/{id} with a non-empty id on a well-formed store replies
    204 with no body and no header set, the first record with the id being
    taken out of the collection, and 404 "User not found", with nothing
    changed, when no record has the id. *)
Theorem DeleteUser_replies
    (m : Mem) (r : persistence.MemoryUserRepository) (us : list ptr)
    (w : http.ResponseWriter) (req : http.Request) (id : string) :
  arrs m !! persistence.users r = Some us →
  Forall (valid m) us →
  http.code w = None →
  http.var req "id" = id → id ≠ "" →
  let h := handlers.mkHandler (services.mkService r) in
  (∀ i p, first_match m id us i p →
     handlers.DeleteUser h w req m
     = Done (http.mkResponse (Some 204) (http.header w) (http.body w))
         (with_slice m (persistence.users r)
            (take i us ++ drop (S i) us))) ∧
  ((∀ q, q ∈ us → ¬ has_id m id q) →
     handlers.DeleteUser h w req m
     = Done (http.Error w "User not found" 404) m).
Proof.
  intros Hus Hvalid Hw Hvar Hid. simpl. split.
  - intros i p Hfm.
    rewrite (DeleteUser_handler_found m r us Hus Hvalid w req id i p) by done.
    f_equal. unfold http.WriteHeader. by rewrite Hw.
  - intros Habs.
    by apply (DeleteUser_handler_absent m r us Hus Hvalid w req id).
Qed.

Lemma DeleteUser_replies_witness :
  let h := handlers.mkHandler (services.mkService sample.repo) in
  handlers.DeleteUser h http.NewRecorder (http.mkRequest {["id" := "a"]} None)
    sample.seeded
  = Done (http.mkResponse (Some 204) ∅ [])
      (with_slice sample.seeded 1 [addr 2; addr 3]) ∧
  handlers.DeleteUser h http.NewRecorder
    (http.mkRequest {["id" := "nonexistent-id"]} None) sample.seeded
  = Done (http.Error http.NewRecorder "User not found" 404) sample.seeded.
Proof.
  simpl. split.
  - apply (DeleteUser_replies sample.seeded sample.repo
             [addr 1; addr 2; addr 3] http.NewRecorder
             (http.mkRequest {["id" := "a"]} None) "a")
      with (i := 0) (p := addr 1);
      [reflexivity|sample_valid|reflexivity|reflexivity|done|].
    split; [done|]. split; [by exists sample.john|]. intros j q Hj. lia.
  - apply (DeleteUser_replies sample.seeded sample.repo
             [addr 1; addr 2; addr 3] http.NewRecorder
             (http.mkRequest {["id" := "nonexistent-id"]} None)
             "nonexistent-id");
      [reflexivity|sample_valid|reflexivity|reflexivity|done|sample_absent].
Defined.

Lemma written_code w c k v :
  http.code w = None →
  http.code (http.Write c (http.Header_Set k v w)) = Some 200.
Proof.
  intros Hw. unfold http.Write, http.WriteHeader, http.Header_Set. simpl.
  by rewrite Hw.
Qed.

Lemma created_code w c k v :
  http.code w = None →
  http.code (http.Write c (http.WriteHeader http.StatusCreated
                             (http.Header_Set k v w))) = Some 201.
Proof.
  intros Hw. unfold http.Write, http.WriteHeader, http.Header_Set. simpl.
  by rewrite Hw.
Qed.

Lemma no_content_code w :
  http.code w = None →
  http.code (http.WriteHeader http.StatusNoContent w) = Some 204.
Proof. intros Hw. unfold http.WriteHeader. by rewrite Hw. Qed.

(** On a well-formed store every handler replies to every request, and
    with one of its documented status codes: 200 for the list; 200, 400 or
    404 for get, update and delete (204 instead of 200 for delete); 201 or
    400 for create.  No handler panics and none of the branches that reply
    500 is taken. *)
Theorem handlers_status_codes
    (m : Mem) (r : persistence.MemoryUserRepository)
    (w : http.ResponseWriter) (req : http.Request) (uuid : string) :
  store_ok m r →
  http.code w = None →
  let h := handlers.mkHandler (services.mkService r) in
  (∃ w' m', handlers.GetUsers h w req m = Done w' m' ∧
            http.code w' = Some 200) ∧
  (∃ w' m', handlers.GetUser h w req m = Done w' m' ∧
            (http.code w' = Some 200 ∨ http.code w' = Some 400 ∨
             http.code w' = Some 404)) ∧
  (∃ w' m', handlers.CreateUser h uuid w req m = Done w' m' ∧
            (http.code w' = Some 201 ∨ http.code w' = Some 400)) ∧
  (∃ w' m', handlers.UpdateUser h w req m = Done w' m' ∧
            (http.code w' = Some 200 ∨ http.code w' = Some 400 ∨
             http.code w' = Some 404)) ∧
  (∃ w' m', handlers.DeleteUser h w req m = Done w' m' ∧
            (http.code w' = Some 204 ∨ http.code w' = Some 400 ∨
             http.code w' = Some 404)).
Proof.
  intros (us & Hus & Hvalid) Hw. simpl.
  set (h := handlers.mkHandler (services.mkService r)).
  assert (∀ S' `{!service_interface.UserServiceInterface S'}
            (h' : handlers.UserHandler S'),
            http.var req "id" = "" →
            let reply := http.Error w "Invalid user ID" 400 in
            handlers.GetUser h' w req m = Done reply m ∧
            handlers.UpdateUser h' w req m = Done reply m ∧
            handlers.DeleteUser h' w req m = Done reply m) as Hnoid.
  { intros S' ? h' E. simpl.
    unfold handlers.GetUser, handlers.UpdateUser, handlers.DeleteUser.
    by rewrite E. }
  split; [|split; [|split; [|split]]].
  - destruct (GetUsers_handler_done m r us w req Hus Hvalid) as (a & _ & Hrun).
    eexists _, _. split; [exact Hrun|]. by apply written_code.
  - destruct (decide (http.var req "id" = "")) as [E|E].
    { destruct (Hnoid _ _ h E) as (-> & _).
      eexists _, _. split; [done|]. right. left. by apply error_reply_code. }
    destruct (present_or_absent m (http.var req "id") us Hvalid)
      as [Hex|Habs].
    + destruct (first_match_exists _ _ _ Hvalid Hex) as (i & p & Hfm).
      pose proof Hfm as (_ & (u & Hu & _) & _).
      eexists _, _. split; [by eapply (GetUser_found m r us Hus Hvalid)|].
      left. by apply written_code.
    + eexists _, _. split; [by eapply (GetUser_absent m r us Hus Hvalid)|].
      right. right. by apply error_reply_code.
  - destruct (http.Body req) as [[name email]|] eqn:Hbody.
    2: { unfold handlers.CreateUser. rewrite Hbody.
         eexists _, _. split; [done|]. right. by apply error_reply_code. }
    destruct (decide (name = "")) as [Hn|Hn];
      [|destruct (decide (email = "")) as [He|He]].
    1-2: destruct (CreateUser_handler_invalid m r w req uuid name email Hbody)
        as (l & _ & Hrun); [tauto|];
      eexists _, _; (split; [exact Hrun|]); right; by apply error_reply_code.
    destruct (CreateUser_handler_valid m r us Hus w req uuid name email
                Hbody Hn He) as (l & _ & Hrun).
    eexists _, _. split; [exact Hrun|]. left. by apply created_code.
  - destruct (decide (http.var req "id" = "")) as [E|E].
    { destruct (Hnoid _ _ h E) as (_ & -> & _).
      eexists _, _. split; [done|]. right. left. by apply error_reply_code. }
    destruct (http.Body req) as [[name email]|] eqn:Hbody.
    2: { unfold handlers.UpdateUser. rewrite Hbody, decide_False by done.
         eexists _, _. split; [done|]. right. left.
         by apply error_reply_code. }
    destruct (decide (name = "")) as [Hn|Hn];
      [|destruct (decide (email = "")) as [He|He]].
    1-2: eexists _, _;
      (split; [apply (UpdateUser_handler_invalid m r w req _ name email
                        eq_refl E Hbody); tauto|]);
      right; left; by apply error_reply_code.
    destruct (present_or_absent m (http.var req "id") us Hvalid)
      as [Hex|Habs].
    + destruct (first_match_exists _ _ _ Hvalid Hex) as (i & p & Hfm).
      pose proof Hfm as (_ & (u & Hu & _) & _). destruct p as [|l]; [done|].
      eexists _, _.
      split; [by eapply (UpdateUser_handler_found m r us Hus Hvalid)|].
      left. by apply written_code.
    + eexists _, _.
      split; [by eapply (UpdateUser_handler_absent m r us Hus Hvalid)|].
      right. right. by apply error_reply_code.
  - destruct (decide (http.var req "id" = "")) as [E|E].
    { destruct (Hnoid _ _ h E) as (_ & _ & ->).
      eexists _, _. split; [done|]. right. left. by apply error_reply_code. }
    destruct (present_or_absent m (http.var req "id") us Hvalid)
      as [Hex|Habs].
    + destruct (first_match_exists _ _ _ Hvalid Hex) as (i & p & Hfm).
      eexists _, _.
      split; [by eapply (DeleteUser_handler_found m r us Hus Hvalid)|].
      left. by apply no_content_code.
    + eexists _, _.
      split; [by eapply (DeleteUser_handler_absent m r us Hus Hvalid)|].
      right. right. by apply error_reply_code.
Qed.

Lemma handlers_status_codes_witness :
  ∃ w' m',
    handlers.DeleteUser (handlers.mkHandler (services.mkService sample.repo))
      http.NewRecorder (http.mkRequest {["id" := "b"]} None) sample.seeded
    = Done w' m' ∧
    (http.code w' = Some 204 ∨ http.code w' = Some 400 ∨
     http.code w' = Some 404).
Proof.
  destruct (handlers_status_codes sample.seeded sample.repo http.NewRecorder
              (http.mkRequest {["id" := "b"]} None) "d")
    as (_ & _ & _ & _ & Hdel).
  - exists [addr 1; addr 2; addr 3]. split; [done|sample_valid].
  - reflexivity.
  - exact Hdel.
Defined.

(** * What the store leaves alone *)

Lemma slice_put_inv m s vs m' :
  slice_put s vs m = Done () m' → m' = with_slice m s vs.
Proof. unfold slice_put. destruct (arrs m !! s); naive_solver. Qed.

Lemma slice_set_inv m s i p m' :
  slice_set s i p m = Done () m' → ∃ vs, m' = with_slice m s vs.
Proof.
  unfold slice_set. intros H. apply bind_inv in H as (us & m1 & Hget & H).
  apply slice_get_inv in Hget as [_ ->].
  destruct (decide (i < length us)); [|done].
  apply slice_put_inv in H. eauto.
Qed.

Lemma Update_loop_frame r user us i m found m' :
  range us i (λ i existingUser,
      x ← load existingUser;
      y ← load user;
      if decide (ID x = ID y) then
        slice_set (persistence.users r) i user;;
        mret (Some (user, nil_error))
      else mret None) m = Done found m' →
  only_slice (persistence.users r) m m'.
Proof.
  revert i. induction us as [|q us IH]; intros i; simpl.
  - intros [= _ <-]. by left.
  - intros H. apply bind_inv in H as (res & m1 & Hb & H).
    apply bind_inv in Hb as (x & m2 & Hx & Hb).
    apply load_inv in Hx as [_ ->].
    apply bind_inv in Hb as (y & m2 & Hy & Hb).
    apply load_inv in Hy as [_ ->].
    destruct (decide (ID x = ID y)).
    + apply bind_inv in Hb as ([] & m3 & Hset & Hb).
      apply slice_set_inv in Hset as (vs & ->).
      injection Hb as <- <-. injection H as _ <-. right. by exists vs.
    + injection Hb as <- <-. by apply IH in H.
Qed.

Lemma Delete_loop_frame r id us i m found m' :
  range us i (λ i user,
      x ← load user;
      if decide (ID x = id) then
        now ← slice_get (persistence.users r);
        slice_put (persistence.users r) (take i now ++ drop (S i) now);;
        mret (Some nil_error)
      else mret None) m = Done found m' →
  only_slice (persistence.users r) m m'.
Proof.
  revert i. induction us as [|q us IH]; intros i; simpl.
  - intros [= _ <-]. by left.
  - intros H. apply bind_inv in H as (res & m1 & Hb & H).
    apply bind_inv in Hb as (x & m2 & Hx & Hb).
    apply load_inv in Hx as [_ ->].
    destruct (decide (ID x = id)).
    + apply bind_inv in Hb as (now & m3 & Hget & Hb).
      apply slice_get_inv in Hget as [_ ->].
      apply bind_inv in Hb as ([] & m3 & Hput & Hb).
      apply slice_put_inv in Hput as ->.
      injection Hb as <- <-. injection H as _ <-. right. by eexists.
    + injection Hb as <- <-. by apply IH in H.
Qed.

(** In every memory, whenever create, update or delete returns, no user
    object has been created, changed or removed and no slice other than
    the repository's own has changed.  In particular a slice that list
    returned earlier still holds what it held. *)
Theorem store_writes_only_its_slice
    (r : persistence.MemoryUserRepository) (m : Mem) :
  (∀ user res m', persistence.Create r user m = Done res m' →
     objs m' = objs m ∧
     ∀ s, s ≠ persistence.users r → arrs m' !! s = arrs m !! s) ∧
  (∀ user res m', persistence.Update r user m = Done res m' →
     objs m' = objs m ∧
     ∀ s, s ≠ persistence.users r → arrs m' !! s = arrs m !! s) ∧
  (∀ id e m', persistence.Delete r id m = Done e m' →
     objs m' = objs m ∧
     ∀ s, s ≠ persistence.users r → arrs m' !! s = arrs m !! s).
Proof.
  assert (∀ m', only_slice (persistence.users r) m m' →
            objs m' = objs m ∧
            ∀ s, s ≠ persistence.users r → arrs m' !! s = arrs m !! s)
    as Hframe.
  { intros m' [->|(vs & ->)]; [done|]. split; [done|].
    intros s Hs. by apply with_slice_lookup_ne. }
  split; [|split].
  - intros user res m' H. apply Hframe. unfold persistence.Create in H.
    apply bind_inv in H as (us & m1 & Hget & H).
    apply slice_get_inv in Hget as [_ ->].
    apply bind_inv in H as ([] & m2 & Hput & H).
    apply slice_put_inv in Hput as ->. injection H as _ <-.
    right. by eexists.
  - intros user res m' H. apply Hframe. unfold persistence.Update in H.
    apply bind_inv in H as (us & m1 & Hget & H).
    apply slice_get_inv in Hget as [_ ->].
    apply bind_inv in H as (found & m2 & Hloop & H).
    apply Update_loop_frame in Hloop.
    by destruct found; injection H as _ <-.
  - intros id e m' H. apply Hframe. unfold persistence.Delete in H.
    apply bind_inv in H as (us & m1 & Hget & H).
    apply slice_get_inv in Hget as [_ ->].
    apply bind_inv in H as (found & m2 & Hloop & H).
    apply Delete_loop_frame in Hloop.
    by destruct found; injection H as _ <-.
Qed.

(** A snapshot taken from the seeded repository keeps its three elements
    when the second record is deleted afterwards. *)
Lemma store_writes_only_its_slice_witness :
  let m1 := with_slice sample.seeded 2 [addr 1; addr 2; addr 3] in
  persistence.GetAll sample.repo sample.seeded
    = Done (Some 2%positive, nil_error) m1 ∧
  ∀ e m', persistence.Delete sample.repo "b" m1 = Done e m' →
          arrs m' !! 2%positive = Some [addr 1; addr 2; addr 3].
Proof.
  simpl. split; [by vm_compute|]. intros e m' Hdel.
  destruct (store_writes_only_its_slice sample.repo
              (with_slice sample.seeded 2 [addr 1; addr 2; addr 3]))
    as (_ & _ & Hframe).
  destruct (Hframe "b" e m' Hdel) as [_ Harrs].
  by rewrite Harrs.
Defined.

(** ** Further runs *)

Lemma mutators_commute_witness :
  ∃ l u, addr 2 = addr l ∧ objs sample.seeded !! l = Some u ∧
         sample.renamed
         = mkMem (<[l := mkUser (ID u) "Jane Updated"
                            "jane.updated@example.com"]> (objs sample.seeded))
                 (arrs sample.seeded).
Proof.
  destruct (mutators_commute (addr 2) "Jane Updated"
              "jane.updated@example.com" sample.seeded) as [_ H].
  apply H. vm_compute. reflexivity.
Defined.

(** The constructor run in a memory that already holds the seeded
    repository: the objects that were there are still there. *)
Lemma NewMemoryUserRepository_builds_witness :
  ∃ r m', persistence.NewMemoryUserRepository "x" "y" "z" sample.seeded
          = Done r m' ∧
          arrs sample.seeded !! persistence.users r = None ∧
          objs m' !! 1%positive = Some sample.john ∧
          arrs m' !! 1%positive = Some [addr 1; addr 2; addr 3] ∧
          store_ok m' r.
Proof.
  destruct (NewMemoryUserRepository_builds sample.seeded "x" "y" "z")
    as (r & m' & a & b & c & Hrun & Hfresh & _ & _ & _ & _ & _ & _ & _ & _
        & Hobjs & Harrs & Hok).
  exists r, m'. split; [done|]. split; [done|].
  split; [by apply Hobjs|]. split; [by apply Harrs|done].
Defined.
